(** * Eppo experiment reports: field normalisation and CSV serialisation

    A shallow embedding of the two report scripts of the repository,
    [exp-by-team.js] (class [EppoExperimentFetcher], the team report) and
    [ready-experiments.js] (class [ReadyExperimentsFetcher], the status
    report), together with the fragment of JavaScript semantics they rely
    on: truthiness and [||], property reads with optional chaining,
    [ToString], [parseInt], and a handful of [String.prototype] methods.

    Layout: the JavaScript fragment first ([Module Js]), the small effect
    monad for console output and exceptions, then one module per script,
    then the properties. *)

From Stdlib Require Import ZArith String Ascii List Bool Lia.
From stdpp Require Import base option list strings pretty.

Local Open Scope string_scope.
Local Open Scope Z_scope.

(** ** The JavaScript fragment *)

Module Js.

(** Values that [JSON.parse] can deliver, plus [undefined] (the result of
    reading a missing property).

    Numbers: [JNum n] is the integer [n], for the safe integers, those of
    magnitude at most 2^53 - 1: each is a number of its own, and
    [Number::toString] renders it as its decimal digits (the scripts cannot
    tell [-0] from [0]).  Every other number of a payload (a fraction, an
    integer from 2^53 on, whose rendering is the shortest digits that read
    back as the same number, in exponent form from 10^21 on, an infinity
    from an overflowing literal) is [JNumText t], identified by its
    rendering [t]; such a number is never zero and its rendering never
    empty.  Rendering and truthiness are all the scripts ask of a number.
    A [JNum] outside the safe range stands for no number; [safe], further
    down, is the predicate that excludes it.

    Objects: an object is its own-property table; [JSON.parse] keeps the
    last of several bindings of one key, and the table lists the surviving
    binding of each key (a read takes the first binding found).

    Strings: a string is the sequence of bytes of its UTF-8 encoding; every
    string operation the scripts use searches for ASCII characters only, and
    an ASCII byte never occurs inside a multi-byte sequence. *)
#[warnings="-register-all"]
Inductive JsValue : Type :=
| JUndefined
| JNull
| JBool (b : bool)
| JNum (n : Z)
| JNumText (text : string)
| JStr (s : string)
| JArr (items : list JsValue)
| JObj (props : list (string * JsValue)).

(** [typeof v] *)
Definition typeof (v : JsValue) : string :=
  match v with
  | JUndefined => "undefined"
  | JNull => "object"
  | JBool _ => "boolean"
  | JNum _ => "number"
  | JNumText _ => "number"
  | JStr _ => "string"
  | JArr _ => "object"
  | JObj _ => "object"
  end.

(** [Array.isArray(v)] *)
Definition isArray (v : JsValue) : bool :=
  match v with JArr _ => true | _ => false end.

(** [ToBoolean]: what [if (v)], [!v], [v ? a : b] and [v || w] test. *)
Definition truthy (v : JsValue) : bool :=
  match v with
  | JUndefined | JNull => false
  | JBool b => b
  | JNum n => negb (n =? 0)
  | JNumText _ => true
  | JStr s => negb (String.eqb s "")
  | JArr _ | JObj _ => true
  end.

(** [v === undefined || v === null] *)
Definition nullish (v : JsValue) : bool :=
  match v with JUndefined | JNull => true | _ => false end.

(** First binding of a key in a property table. *)
Fixpoint lookupProp (k : string) (ps : list (string * JsValue)) : option JsValue :=
  match ps with
  | [] => None
  | (k', v) :: ps' => if String.eqb k k' then Some v else lookupProp k ps'
  end.

(** [v.k] for the data keys the scripts read ([status], [team_id], [owner],
    [name], ...): none of them is a property of a built-in prototype, so the
    read yields the own property of an object and [undefined] on every other
    value, and raises a [TypeError] ([None]) on [undefined] and [null]. *)
Definition getProp (v : JsValue) (k : string) : option JsValue :=
  match v with
  | JUndefined | JNull => None
  | JObj ps => Some (default JUndefined (lookupProp k ps))
  | _ => Some JUndefined
  end.

(** [v?.k] *)
Definition getPropOpt (v : JsValue) (k : string) : option JsValue :=
  if nullish v then Some JUndefined else getProp v k.

(** [a || b]: [b] is evaluated only when [a] is falsy, so an exception of
    [b] is seen only then. *)
Definition orElse (a b : option JsValue) : option JsValue :=
  x ← a; if truthy x then Some x else b.

Infix "<||>" := orElse (at level 85, right associativity).

(** *** Strings *)

Definition comma : ascii := ","%char.
Definition dquote : ascii := "034"%char.
Definition newline : ascii := "010"%char.
Definition atSign : ascii := "@"%char.

Definition str1 (c : ascii) : string := String c EmptyString.

(** [hay.includes(needle)] *)
Fixpoint includes (needle hay : string) : bool :=
  String.prefix needle hay
  || match hay with
     | EmptyString => false
     | String _ hay' => includes needle hay'
     end.

(** [s.replace(/c/g, by)] for a pattern that is the single character [c]. *)
Fixpoint replaceAll (c : ascii) (by_ : string) (s : string) : string :=
  match s with
  | EmptyString => EmptyString
  | String a s' =>
      if Ascii.eqb a c then by_ ++ replaceAll c by_ s'
      else String a (replaceAll c by_ s')
  end.

(** [s.split(sep)] for a separator of one character: the pieces between
    the occurrences of [sep], never an empty array. *)
Fixpoint split (sep : ascii) (s : string) : list string :=
  match s with
  | EmptyString => [EmptyString]
  | String a s' =>
      if Ascii.eqb a sep then EmptyString :: split sep s'
      else match split sep s' with
           | [] => [str1 a]
           | p :: ps => String a p :: ps
           end
  end.

(** [arr[0]] on an array of strings. *)
Definition first (l : list string) : JsValue :=
  match l with
  | [] => JUndefined
  | p :: _ => JStr p
  end.

(** [toLowerCase] on one byte.  The only letters that matter to the scripts
    are those of [ready] and [wrap_up]; no character outside ASCII lowercases
    to one of them, so leaving the other bytes alone decides the same
    comparisons. *)
Definition lowerAscii (a : ascii) : ascii :=
  let n := nat_of_ascii a in
  if (65 <=? n)%nat && (n <=? 90)%nat then ascii_of_nat (n + 32) else a.

Fixpoint toLowerCase (s : string) : string :=
  match s with
  | EmptyString => EmptyString
  | String a s' => String (lowerAscii a) (toLowerCase s')
  end.

(** [Array.prototype.join]'s loop, given the conversion of one element. *)
Fixpoint joinWith (sep : string) (parts : list (option string)) : option string :=
  match parts with
  | [] => Some ""
  | [p] => p
  | p :: rest => s ← p; r ← joinWith sep rest; Some (s ++ sep ++ r)
  end.

(** [ToString(v)], as applied by [String(v)], template literals and
    [parseInt].  An array goes through [Array.prototype.join], where
    [undefined] and [null] elements render empty.  An object from
    [JSON.parse] renders as [[object Object]] unless it has an own property
    [toString]: that value is not callable, [valueOf] then returns the
    object itself, and the conversion raises a [TypeError] ([None]).  A
    [JNum] holds a safe integer, which [Number::toString] renders as its
    decimal digits; every other number is a [JNumText] and carries its
    rendering. *)
Fixpoint toString (v : JsValue) : option string :=
  match v with
  | JUndefined => Some "undefined"
  | JNull => Some "null"
  | JBool true => Some "true"
  | JBool false => Some "false"
  | JNum n => Some (pretty n)
  | JNumText text => Some text
  | JStr s => Some s
  | JArr items =>
      joinWith ","
        ((fix elems (l : list JsValue) : list (option string) :=
            match l with
            | [] => []
            | x :: l' => (if nullish x then Some "" else toString x) :: elems l'
            end) items)
  | JObj ps =>
      match lookupProp "toString" ps with
      | Some _ => None
      | None => Some "[object Object]"
      end
  end.

(** [v.toString()]: the method call, which differs from [ToString] only on
    [undefined] and [null], where the property read itself fails. *)
Definition toStringMethod (v : JsValue) : option string :=
  if nullish v then None else toString v.

(** *** [parseInt]

    [parseInt(v)] with no radix: [ToString(v)], leading white space
    skipped, an optional sign, an optional [0x]/[0X] prefix selecting radix
    16 (radix 10 otherwise), then the longest run of digits of that radix.
    No digit at all gives [NaN], here [None].  Otherwise the result is the
    Number value of the signed integer the digits spell: the double
    nearest to it, ties going to the even significand, and an infinity
    when that is out of range (Node's engine reads every digit; the
    language lets an engine ignore those after the twentieth).  A result is carried as the integer the
    double is, and the infinities as 2^1024 and its opposite, which no
    double is; so two results are the same number exactly when they are
    the same [Z]. *)

(** The double nearest to an integer (round to nearest, ties to even), as
    the integer it is; plus or minus [infinity] past the largest double.
    Below 2^53 every integer is a double. *)
Definition infinity : Z := 2 ^ 1024.

(** [Number.MAX_SAFE_INTEGER], 2^53 - 1. *)
Definition maxSafeInteger : Z := 9007199254740991.

Definition toDouble (n : Z) : Z :=
  let a := Z.abs n in
  if a <? 2 ^ 53 then n
  else
    let e := Z.log2 a - 52 in
    let q := a / 2 ^ e in
    let r := a mod 2 ^ e in
    let half := 2 ^ (e - 1) in
    let q' := if (half <? r) || ((r =? half) && Z.odd q) then q + 1 else q in
    let m := q' * 2 ^ e in
    Z.sgn n * (if infinity <=? m then infinity else m).

(** [StrWhiteSpaceChar], on the UTF-8 bytes: the ASCII ones (TAB, LF, VT,
    FF, CR, SP) directly, the others (U+00A0, U+1680, U+2000..U+200A,
    U+2028, U+2029, U+202F, U+205F, U+3000, U+FEFF) by their encodings. *)
Definition isAsciiSpace (a : ascii) : bool :=
  let n := nat_of_ascii a in
  ((9 <=? n)%nat && (n <=? 13)%nat) || (n =? 32)%nat.

Fixpoint trimStart (s : string) : string :=
  match s with
  | String a s1 =>
      if isAsciiSpace a then trimStart s1
      else
        match nat_of_ascii a, s1 with
        | 194%nat, String b s2 =>
            if (nat_of_ascii b =? 160)%nat then trimStart s2 else s
        | 225%nat, String b (String c s3) =>
            if (nat_of_ascii b =? 154)%nat && (nat_of_ascii c =? 128)%nat
            then trimStart s3 else s
        | 226%nat, String b (String c s3) =>
            let nb := nat_of_ascii b in
            let nc := nat_of_ascii c in
            if ((nb =? 128)%nat
                && (((128 <=? nc)%nat && (nc <=? 138)%nat)
                    || (nc =? 168)%nat || (nc =? 169)%nat || (nc =? 175)%nat))
               || ((nb =? 129)%nat && (nc =? 159)%nat)
            then trimStart s3 else s
        | 227%nat, String b (String c s3) =>
            if (nat_of_ascii b =? 128)%nat && (nat_of_ascii c =? 128)%nat
            then trimStart s3 else s
        | 239%nat, String b (String c s3) =>
            if (nat_of_ascii b =? 187)%nat && (nat_of_ascii c =? 191)%nat
            then trimStart s3 else s
        | _, _ => s
        end
  | EmptyString => s
  end.

(** Value of a character as a digit of the radix, if it is one. *)
Definition digitValue (radix : Z) (a : ascii) : option Z :=
  let n := Z.of_nat (nat_of_ascii a) in
  let d := if (48 <=? n) && (n <=? 57) then Some (n - 48)
           else if (97 <=? n) && (n <=? 122) then Some (n - 87)
           else if (65 <=? n) && (n <=? 90) then Some (n - 55)
           else None in
  match d with
  | Some k => if k <? radix then Some k else None
  | None => None
  end.

(** The longest prefix of digits, read left to right; [acc] is the value
    of the digits read so far ([None] before the first). *)
Fixpoint parseDigits (radix : Z) (acc : option Z) (s : string) : option Z :=
  match s with
  | EmptyString => acc
  | String a s' =>
      match digitValue radix a with
      | Some d => parseDigits radix (Some (default 0 acc * radix + d)) s'
      | None => acc
      end
  end.

Definition parseIntString (input : string) : option Z :=
  let s := trimStart input in
  let '(sign, s) :=
    match s with
    | String "-" s' => (-1, s')
    | String "+" s' => (1, s')
    | _ => (1, s)
    end in
  let '(radix, s) :=
    match s with
    | String "0" (String "x" s') => (16, s')
    | String "0" (String "X" s') => (16, s')
    | _ => (10, s)
    end in
  n ← parseDigits radix None s; Some (toDouble (sign * n)).

Definition parseInt (v : JsValue) : option (option Z) :=
  s ← toString v; Some (parseIntString s).

(** [x === y] on two results of [parseInt]: [NaN] equals nothing, and two
    doubles (or infinities) are equal when they are the same integer. *)
Definition numStrictEq (x y : option Z) : bool :=
  match x, y with
  | Some a, Some b => a =? b
  | _, _ => false
  end.

End Js.

Import Js.

(** ** Console, file system and exceptions *)

(** What a console call prints, by its place in the script and the data it
    interpolates; the fixed wording (and its pictographs) is not kept. *)
Inductive Line : Type :=
| LStarting
| LFetching
| LApiError
| LResponseData
| LNetworkError
| LOtherError
| LTotalFetched (n : option nat)
| LUniqueHeader
| LUniqueItem (s : string)
| LNotArray (typeOf : string)
| LNoneFound
| LFound (n : nat)
| LCsvRow (row : string)
| LSaved (fileName : string)
| LFullPath (cwd fileName : string)
| LSaveError
| LSummaryHeader
| LTotal (n : nat)
| LUniqueEmails (n : nat)
| LImportStep (step : nat) (fileName : string)
| LRunError
| LErrorMessage.

Inductive Event : Type :=
| ConsoleLog (l : Line)
| ConsoleWarn (l : Line)
| ConsoleError (l : Line)
| WriteFile (cwd fileName content : string).

(** What the run cannot decide by itself: the clock, the working directory,
    and whether [fs.writeFileSync] succeeds. *)
Record World : Type := {
  isoNow : string;
  cwd : string;
  writable : bool
}.

(** A computation that prints and may raise: the events so far, in order,
    and the value, or [None] when an exception left it. *)
Definition Eff (A : Type) : Type := list Event * option A.

Definition effRet {A} (a : A) : Eff A := ([], Some a).

Definition effBind {A B} (m : Eff A) (f : A -> Eff B) : Eff B :=
  match m with
  | (t, Some a) => let '(t', r) := f a in ((t ++ t')%list, r)
  | (t, None) => (t, None)
  end.

Definition emit (e : Event) : Eff unit := ([e], Some tt).

(** A pure computation that may raise, run inside [Eff]. *)
Definition liftE {A} (o : option A) : Eff A := ([], o).

Definition events {A} (m : Eff A) : list Event := fst m.
Definition outcome {A} (m : Eff A) : option A := snd m.

Notation "x <-- m ;; k" := (effBind m (fun x => k))
  (at level 100, m at next level, right associativity).
Notation "m ;;; k" := (effBind m (fun _ => k))
  (at level 100, right associativity).

(** [arr.filter(cb)] with a callback that may raise: the elements are
    visited in order and the first exception ends the call. *)
Fixpoint filterM {A} (cb : A -> option bool) (l : list A) : option (list A) :=
  match l with
  | [] => Some []
  | x :: l' =>
      b ← cb x;
      r ← filterM cb l';
      Some (if b : bool then x :: r else r)
  end.

(** [arr.forEach(cb)] *)
Fixpoint forEachE {A} (cb : A -> Eff unit) (l : list A) : Eff unit :=
  match l with
  | [] => effRet tt
  | x :: l' => cb x ;;; forEachE cb l'
  end.

(** [arr.map(cb)] with a callback that may raise. *)
Fixpoint mapE {A B} (cb : A -> option B) (l : list A) : option (list B) :=
  match l with
  | [] => Some []
  | x :: l' => y ← cb x; r ← mapE cb l'; Some (y :: r)
  end.

(** [SameValueZero], the equality of [Set].  Two objects are the same only
    when they are one object; the values compared here come from distinct
    places of one parsed payload, so two objects never are. *)
Definition sameValueZero (a b : JsValue) : bool :=
  match a, b with
  | JUndefined, JUndefined => true
  | JNull, JNull => true
  | JBool x, JBool y => Bool.eqb x y
  | JNum x, JNum y => x =? y
  | JNumText x, JNumText y => String.eqb x y
  | JStr x, JStr y => String.eqb x y
  | _, _ => false
  end.

(** [[...new Set(l)]]: first occurrences, in insertion order. *)
Fixpoint setOf (seen l : list JsValue) : list JsValue :=
  match l with
  | [] => []
  | x :: l' =>
      if existsb (sameValueZero x) seen then setOf seen l'
      else x :: setOf (x :: seen) l'
  end.

(** [v !== ''] *)
Definition notEmptyString (v : JsValue) : bool :=
  match v with JStr s => negb (String.eqb s "") | _ => true end.

(** [new Date().toISOString().split('T')[0]] *)
Definition today (w : World) : string :=
  match split "T" (isoNow w) with
  | day :: _ => day
  | [] => "undefined"
  end.

(** [process.env]: a variable is absent or a string. *)
Record Env : Type := {
  EPPO_API_KEY : option string;
  EPPO_BASE_URL : option string;
  TEAM_ID : option string
}.

(** Truthiness of [process.env.X]. *)
Definition envSet (x : option string) : bool :=
  match x with
  | Some s => negb (String.eqb s "")
  | None => false
  end.

(** How the HTTP request of [fetchExperiments] ended: [response.data], or
    one of the three failures the [catch] tells apart. *)
Inductive FetchOutcome : Type :=
| Fetched (data : JsValue)
| ApiError
| NetworkError
| OtherError.

(** [rows.join('\n')] *)
Definition joinLines (rows : list string) : string :=
  String.concat (str1 newline) rows.

(** Resolved owner of a record: the two locals [ownerName], [ownerEmail]. *)
Record Owner : Type := {
  ownerName : JsValue;
  ownerEmail : JsValue
}.

Definition urlPrefix : string := "https://eppo.cloud/experiments/".

(** ** The team report: [exp-by-team.js] *)

Module Team.

Record Fetcher : Type := {
  apiKey : string;
  baseUrl : string;
  teamId : string
}.

(** [constructor()]: [None] when it throws. *)
Definition construct (env : Env) : option Fetcher :=
  if negb (envSet (EPPO_API_KEY env)) then None
  else if negb (envSet (TEAM_ID env)) then None
  else Some {| apiKey := default "" (EPPO_API_KEY env);
               baseUrl := if envSet (EPPO_BASE_URL env)
                          then default "" (EPPO_BASE_URL env)
                          else "https://eppo.cloud/api/v1";
               teamId := default "" (TEAM_ID env) |}.

(** [fetchExperiments()], given how the request ended. *)
Definition fetchExperiments (r : FetchOutcome) : Eff JsValue :=
  emit (ConsoleLog LFetching) ;;;
  match r with
  | Fetched data => effRet data
  | ApiError =>
      emit (ConsoleError LApiError) ;;;
      emit (ConsoleError LResponseData) ;;;
      liftE None
  | NetworkError => emit (ConsoleError LNetworkError) ;;; liftE None
  | OtherError => emit (ConsoleError LOtherError) ;;; liftE None
  end.

(** The local [team_id] of the filter callback. *)
Definition teamIdOf (experiment : JsValue) : option JsValue :=
  getProp experiment "team_id"
  <||> getProp experiment "teamId"
  <||> getProp experiment "owner_team_id"
  <||> getProp experiment "ownerTeamId"
  <||> (m ← getProp experiment "metadata"; getPropOpt m "team_id")
  <||> (m ← getProp experiment "metadata"; getPropOpt m "teamId").

(** The filter callback: [parseInt(team_id) === parseInt(teamId)]. *)
Definition inTeam (teamId experiment : JsValue) : option bool :=
  team_id ← teamIdOf experiment;
  a ← parseInt team_id;
  b ← parseInt teamId;
  Some (numStrictEq a b).

Definition filterByTeam (experiments teamId : JsValue) : Eff (list JsValue) :=
  if negb (isArray experiments) then
    emit (ConsoleWarn (LNotArray (typeof experiments))) ;;;
    effRet []
  else
    match experiments with
    | JArr items => liftE (filterM (inTeam teamId) items)
    | _ => effRet []
    end.

Definition escapeCsv (value : JsValue) : option string :=
  value ← match value with
          | JStr s => Some s
          | _ => toString value
          end;
  if includes "," value || includes (str1 dquote) value
     || includes (str1 newline) value
  then Some (str1 dquote
             ++ replaceAll dquote (str1 dquote ++ str1 dquote) value
             ++ str1 dquote)
  else Some value.

(** The local [owner] of the row loop. *)
Definition ownerSourceOf (experiment : JsValue) : option JsValue :=
  getProp experiment "owner"
  <||> getProp experiment "created_by"
  <||> getProp experiment "createdBy"
  <||> getProp experiment "author"
  <||> Some (JObj []).

(** The locals [ownerName] and [ownerEmail], from [owner]. *)
Definition resolveOwner (owner : JsValue) : option Owner :=
  if String.eqb (typeof owner) "object" && negb (sameValueZero owner JNull) then
    name ← (getProp owner "name" <||> getProp owner "full_name"
            <||> getProp owner "displayName" <||> Some (JStr ""));
    email ← (getProp owner "email" <||> getProp owner "email_address"
             <||> Some (JStr ""));
    Some {| ownerName := name; ownerEmail := email |}
  else
    match owner with
    | JStr s =>
        if includes "@" s
        then Some {| ownerName := first (split "@" s); ownerEmail := owner |}
        else Some {| ownerName := owner; ownerEmail := JStr "" |}
    | _ => Some {| ownerName := JStr ""; ownerEmail := JStr "" |}
    end.

Definition ownerOf (experiment : JsValue) : option Owner :=
  owner ← ownerSourceOf experiment;
  resolveOwner owner.

(** The locals of one pass of the row loop. *)
Record Row : Type := {
  experimentName : JsValue;
  experimentId : JsValue;
  rowOwner : Owner;
  experimentUrl : string
}.

Definition rowOf (experiment : JsValue) : option Row :=
  name ← (getProp experiment "name" <||> getProp experiment "title"
          <||> Some (JStr "Unnamed Experiment"));
  id ← (getProp experiment "id" <||> getProp experiment "experiment_id"
        <||> Some (JStr ""));
  owner ← ownerOf experiment;
  url ← (if truthy id then s ← toString id; Some (urlPrefix ++ s) else Some "");
  Some {| experimentName := name; experimentId := id;
          rowOwner := owner; experimentUrl := url |}.

(** The local [csvRow]. *)
Definition csvRowOf (r : Row) : option string :=
  c1 ← escapeCsv (experimentName r);
  c2 ← escapeCsv (experimentId r);
  c3 ← escapeCsv (ownerName (rowOwner r));
  c4 ← escapeCsv (ownerEmail (rowOwner r));
  c5 ← escapeCsv (JStr (experimentUrl r));
  Some (c1 ++ "," ++ c2 ++ "," ++ c3 ++ "," ++ c4 ++ "," ++ c5).

Definition header : string :=
  "experiment_name,experiment_id,owner.name,owner.email,experiment_url".

(** The row loop: each row is pushed and printed. *)
Fixpoint rowsE (experiments : list JsValue) : Eff (list string) :=
  match experiments with
  | [] => effRet []
  | experiment :: rest =>
      csvRow <-- liftE (r ← rowOf experiment; csvRowOf r) ;;
      emit (ConsoleLog (LCsvRow csvRow)) ;;;
      rows <-- rowsE rest ;;
      effRet (csvRow :: rows)
  end.

(** The callback of the summary's [experiments.map]. *)
Definition summaryEmailOf (exp : JsValue) : option JsValue :=
  owner ← (getProp exp "owner"
           <||> getProp exp "created_by"
           <||> getProp exp "createdBy"
           <||> getProp exp "author"
           <||> Some (JObj []));
  if String.eqb (typeof owner) "object" && negb (sameValueZero owner JNull) then
    getProp owner "email" <||> getProp owner "email_address" <||> Some (JStr "")
  else
    match owner with
    | JStr s => if includes "@" s then Some owner else Some (JStr "")
    | _ => Some (JStr "")
    end.

Definition uniqueOwnerEmails (experiments : list JsValue) : option (list JsValue) :=
  emails ← mapE summaryEmailOf experiments;
  Some (setOf [] (filter (fun email => notEmptyString email = true) emails)).

Definition fileNameOf (this : Fetcher) (w : World) : string :=
  "eppo_experiments_team_" ++ teamId this ++ "_" ++ today w ++ ".csv".

Definition displayExperimentOwners
    (this : Fetcher) (w : World) (experiments : list JsValue) : Eff unit :=
  if (length experiments =? 0)%nat then
    emit (ConsoleLog LNoneFound)
  else
    emit (ConsoleLog (LFound (length experiments))) ;;;
    rows <-- rowsE experiments ;;
    let csvContent := joinLines (header :: rows) in
    let fileName := fileNameOf this w in
    (if writable w then
       emit (WriteFile (cwd w) fileName csvContent) ;;;
       emit (ConsoleLog (LSaved fileName)) ;;;
       emit (ConsoleLog (LFullPath (cwd w) fileName))
     else
       emit (ConsoleError LSaveError)) ;;;
    unique <-- liftE (uniqueOwnerEmails experiments) ;;
    emit (ConsoleLog LSummaryHeader) ;;;
    emit (ConsoleLog (LTotal (length experiments))) ;;;
    emit (ConsoleLog (LUniqueEmails (length unique))) ;;;
    forEachE (fun step => emit (ConsoleLog (LImportStep step fileName)))
             (seq 0 8).

(** The body of [run]'s [try] block. *)
Definition runBody (this : Fetcher) (w : World) (r : FetchOutcome) : Eff unit :=
  emit (ConsoleLog LStarting) ;;;
  allExperiments <-- fetchExperiments r ;;
  emit (ConsoleLog (LTotalFetched
          match allExperiments with
          | JArr items => Some (length items)
          | _ => None
          end)) ;;;
  match allExperiments with
  | JArr items =>
      found <-- liftE (mapE teamIdOf items) ;;
      let teamIds := setOf [] (filter (fun v => truthy v = true) found) in
      emit (ConsoleLog LUniqueHeader) ;;;
      forEachE (fun v => s <-- liftE (toString v) ;;
                         emit (ConsoleLog (LUniqueItem s))) teamIds
  | _ => effRet tt
  end ;;;
  teamExperiments <-- filterByTeam allExperiments (JStr (teamId this)) ;;
  displayExperimentOwners this w teamExperiments.

(** [run()]: the events and the exit status of the process. *)
Definition run (this : Fetcher) (w : World) (r : FetchOutcome) : list Event * Z :=
  match runBody this w r with
  | (t, Some _) => (t, 0)
  | (t, None) => ((t ++ [ConsoleError LRunError; ConsoleError LErrorMessage])%list, 1)
  end.

(** The script's entry point, [new EppoExperimentFetcher()] then [run()].
    An exception of the constructor is caught by nobody: the runtime
    reports it and ends the process with status 1, nothing having been
    printed by the script. *)
Definition main (env : Env) (w : World) (r : FetchOutcome) : list Event * Z :=
  match construct env with
  | Some fetcher => run fetcher w r
  | None => ([], 1)
  end.

End Team.

(** ** The status report: [ready-experiments.js] *)

Module Ready.

Record Fetcher : Type := {
  apiKey : string;
  baseUrl : string
}.

(** [constructor()]: [None] when it throws. *)
Definition construct (env : Env) : option Fetcher :=
  if negb (envSet (EPPO_API_KEY env)) then None
  else Some {| apiKey := default "" (EPPO_API_KEY env);
               baseUrl := if envSet (EPPO_BASE_URL env)
                          then default "" (EPPO_BASE_URL env)
                          else "https://eppo.cloud/api/v1" |}.

(** [fetchExperiments()], given how the request ended. *)
Definition fetchExperiments (r : FetchOutcome) : Eff JsValue :=
  emit (ConsoleLog LFetching) ;;;
  match r with
  | Fetched data => effRet data
  | ApiError =>
      emit (ConsoleError LApiError) ;;;
      emit (ConsoleError LResponseData) ;;;
      liftE None
  | NetworkError => emit (ConsoleError LNetworkError) ;;; liftE None
  | OtherError => emit (ConsoleError LOtherError) ;;; liftE None
  end.

Definition targetStatuses : list string := ["ready"; "wrap_up"].

(** The local [status] of the filter callback. *)
Definition statusOf (experiment : JsValue) : option JsValue :=
  getProp experiment "status"
  <||> getProp experiment "state"
  <||> getProp experiment "experiment_status"
  <||> (m ← getProp experiment "metadata"; getPropOpt m "status")
  <||> (m ← getProp experiment "metadata"; getPropOpt m "state").

(** [targetStatuses.includes(statusStr)] *)
Definition isTarget (statusStr : string) : bool :=
  existsb (String.eqb statusStr) targetStatuses.

(** The filter callback. *)
Definition hasTargetStatus (experiment : JsValue) : option bool :=
  status ← statusOf experiment;
  if negb (truthy status) then Some false
  else
    s ← toStringMethod status;
    let statusStr := toLowerCase s in
    Some (isTarget statusStr).

Definition filterByTargetStatuses (experiments : JsValue) : Eff (list JsValue) :=
  if negb (isArray experiments) then
    emit (ConsoleWarn (LNotArray (typeof experiments))) ;;;
    effRet []
  else
    match experiments with
    | JArr items => liftE (filterM hasTargetStatus items)
    | _ => effRet []
    end.

Definition escapeCsv (value : JsValue) : option string :=
  value ← match value with
          | JStr s => Some s
          | _ => toString value
          end;
  if includes "," value || includes (str1 dquote) value
     || includes (str1 newline) value
  then Some (str1 dquote
             ++ replaceAll dquote (str1 dquote ++ str1 dquote) value
             ++ str1 dquote)
  else Some value.

(** The local [owner] of the row loop. *)
Definition ownerSourceOf (experiment : JsValue) : option JsValue :=
  getProp experiment "owner"
  <||> getProp experiment "created_by"
  <||> getProp experiment "createdBy"
  <||> getProp experiment "author"
  <||> Some (JObj []).

(** The locals [ownerName] and [ownerEmail], from [owner]. *)
Definition resolveOwner (owner : JsValue) : option Owner :=
  if String.eqb (typeof owner) "object" && negb (sameValueZero owner JNull) then
    name ← (getProp owner "name" <||> getProp owner "full_name"
            <||> getProp owner "displayName" <||> Some (JStr ""));
    email ← (getProp owner "email" <||> getProp owner "email_address"
             <||> Some (JStr ""));
    Some {| ownerName := name; ownerEmail := email |}
  else
    match owner with
    | JStr s =>
        if includes "@" s
        then Some {| ownerName := first (split "@" s); ownerEmail := owner |}
        else Some {| ownerName := owner; ownerEmail := JStr "" |}
    | _ => Some {| ownerName := JStr ""; ownerEmail := JStr "" |}
    end.

Definition ownerOf (experiment : JsValue) : option Owner :=
  owner ← ownerSourceOf experiment;
  resolveOwner owner.

(** The locals of one pass of the row loop. *)
Record Row : Type := {
  experimentName : JsValue;
  experimentId : JsValue;
  experimentStatus : JsValue;
  rowOwner : Owner;
  experimentUrl : string
}.

Definition rowOf (experiment : JsValue) : option Row :=
  name ← (getProp experiment "name" <||> getProp experiment "title"
          <||> Some (JStr "Unnamed Experiment"));
  id ← (getProp experiment "id" <||> getProp experiment "experiment_id"
        <||> Some (JStr ""));
  status ← (getProp experiment "status"
            <||> getProp experiment "state"
            <||> getProp experiment "experiment_status"
            <||> (m ← getProp experiment "metadata"; getPropOpt m "status")
            <||> (m ← getProp experiment "metadata"; getPropOpt m "state")
            <||> Some (JStr ""));
  owner ← ownerOf experiment;
  url ← (if truthy id then s ← toString id; Some (urlPrefix ++ s) else Some "");
  Some {| experimentName := name; experimentId := id;
          experimentStatus := status;
          rowOwner := owner; experimentUrl := url |}.

(** The local [csvRow]. *)
Definition csvRowOf (r : Row) : option string :=
  c1 ← escapeCsv (ownerName (rowOwner r));
  c2 ← escapeCsv (ownerEmail (rowOwner r));
  c3 ← escapeCsv (experimentName r);
  c4 ← escapeCsv (experimentId r);
  c5 ← escapeCsv (experimentStatus r);
  c6 ← escapeCsv (JStr (experimentUrl r));
  Some (c1 ++ "," ++ c2 ++ "," ++ c3 ++ "," ++ c4 ++ "," ++ c5 ++ "," ++ c6).

Definition header : string :=
  "owner,owner_email,experiment_name,experiment_id,experiment_status,experiment_link".

(** The row loop: each row is pushed and printed. *)
Fixpoint rowsE (experiments : list JsValue) : Eff (list string) :=
  match experiments with
  | [] => effRet []
  | experiment :: rest =>
      csvRow <-- liftE (r ← rowOf experiment; csvRowOf r) ;;
      emit (ConsoleLog (LCsvRow csvRow)) ;;;
      rows <-- rowsE rest ;;
      effRet (csvRow :: rows)
  end.

(** The callback of the summary's [experiments.map]. *)
Definition summaryEmailOf (exp : JsValue) : option JsValue :=
  owner ← (getProp exp "owner"
           <||> getProp exp "created_by"
           <||> getProp exp "createdBy"
           <||> getProp exp "author"
           <||> Some (JObj []));
  if String.eqb (typeof owner) "object" && negb (sameValueZero owner JNull) then
    getProp owner "email" <||> getProp owner "email_address" <||> Some (JStr "")
  else
    match owner with
    | JStr s => if includes "@" s then Some owner else Some (JStr "")
    | _ => Some (JStr "")
    end.

Definition uniqueOwnerEmails (experiments : list JsValue) : option (list JsValue) :=
  emails ← mapE summaryEmailOf experiments;
  Some (setOf [] (filter (fun email => notEmptyString email = true) emails)).

Definition fileNameOf (w : World) : string :=
  "eppo_ready_wrap_up_experiments_" ++ today w ++ ".csv".

Definition generateReadyExperimentsCSV
    (w : World) (experiments : list JsValue) : Eff unit :=
  if (length experiments =? 0)%nat then
    emit (ConsoleLog LNoneFound)
  else
    emit (ConsoleLog (LFound (length experiments))) ;;;
    rows <-- rowsE experiments ;;
    let csvContent := joinLines (header :: rows) in
    let fileName := fileNameOf w in
    (if writable w then
       emit (WriteFile (cwd w) fileName csvContent) ;;;
       emit (ConsoleLog (LSaved fileName)) ;;;
       emit (ConsoleLog (LFullPath (cwd w) fileName))
     else
       emit (ConsoleError LSaveError)) ;;;
    unique <-- liftE (uniqueOwnerEmails experiments) ;;
    emit (ConsoleLog LSummaryHeader) ;;;
    emit (ConsoleLog (LTotal (length experiments))) ;;;
    emit (ConsoleLog (LUniqueEmails (length unique))) ;;;
    forEachE (fun step => emit (ConsoleLog (LImportStep step fileName)))
             (seq 0 8).

(** The body of [run]'s [try] block. *)
Definition runBody (w : World) (r : FetchOutcome) : Eff unit :=
  emit (ConsoleLog LStarting) ;;;
  allExperiments <-- fetchExperiments r ;;
  emit (ConsoleLog (LTotalFetched
          match allExperiments with
          | JArr items => Some (length items)
          | _ => None
          end)) ;;;
  match allExperiments with
  | JArr items =>
      found <-- liftE (mapE statusOf items) ;;
      let statuses := setOf [] (filter (fun v => truthy v = true) found) in
      emit (ConsoleLog LUniqueHeader) ;;;
      forEachE (fun v => s <-- liftE (toString v) ;;
                         emit (ConsoleLog (LUniqueItem s))) statuses
  | _ => effRet tt
  end ;;;
  readyExperiments <-- filterByTargetStatuses allExperiments ;;
  generateReadyExperimentsCSV w readyExperiments.

(** [run()]: the events and the exit status of the process. *)
Definition run (w : World) (r : FetchOutcome) : list Event * Z :=
  match runBody w r with
  | (t, Some _) => (t, 0)
  | (t, None) => ((t ++ [ConsoleError LRunError; ConsoleError LErrorMessage])%list, 1)
  end.

(** The script's entry point, [new ReadyExperimentsFetcher()] then
    [run()]; an exception of the constructor ends the process with status
    1, as in the team report. *)
Definition main (env : Env) (w : World) (r : FetchOutcome) : list Event * Z :=
  match construct env with
  | Some _ => run w r
  | None => ([], 1)
  end.

End Ready.

(** ** Vocabulary of the properties *)

(** The value a record holds at a key, [undefined] when it holds none (and
    on anything that is not an object). *)
Definition field (v : JsValue) (k : string) : JsValue :=
  match v with
  | JObj ps => default JUndefined (lookupProp k ps)
  | _ => JUndefined
  end.

(** The first candidate that is truthy, and the first that is neither
    [undefined] nor [null]. *)
Definition firstTruthy (cands : list JsValue) : option JsValue :=
  find truthy cands.

Definition firstDefined (cands : list JsValue) : option JsValue :=
  find (fun v => negb (nullish v)) cands.

(** The candidate locations of each extraction, in the order tried. *)
Definition teamLocations (e : JsValue) : list JsValue :=
  [field e "team_id"; field e "teamId"; field e "owner_team_id";
   field e "ownerTeamId"; field (field e "metadata") "team_id";
   field (field e "metadata") "teamId"].

Definition statusLocations (e : JsValue) : list JsValue :=
  [field e "status"; field e "state"; field e "experiment_status";
   field (field e "metadata") "status"; field (field e "metadata") "state"].

Definition ownerLocations (e : JsValue) : list JsValue :=
  [field e "owner"; field e "created_by"; field e "createdBy"; field e "author"].

Definition nameLocations (owner : JsValue) : list JsValue :=
  [field owner "name"; field owner "full_name"; field owner "displayName"].

Definition emailLocations (owner : JsValue) : list JsValue :=
  [field owner "email"; field owner "email_address"].

Definition idLocations (e : JsValue) : list JsValue :=
  [field e "id"; field e "experiment_id"].

(** The experiment id of a record's row: the first truthy of [id] and
    [experiment_id], or the empty string. *)
Definition resolvedId (e : JsValue) : JsValue :=
  default (JStr "") (firstTruthy (idLocations e)).

(** The team identifier a record resolves to: the first truthy location,
    or what the last location holds when none is truthy. *)
Definition resolvedTeamId (e : JsValue) : JsValue :=
  default (field (field e "metadata") "teamId") (firstTruthy (teamLocations e)).

(** Integer coercion of a value: the integer, if the value stringifies and
    the text starts with one. *)
Definition toInteger (v : JsValue) : option Z :=
  s ← toString v; parseIntString s.

(** The record's team identifier and the target coerce to one integer. *)
Definition teamMatches (teamId e : JsValue) : Prop :=
  exists n : Z, toInteger (resolvedTeamId e) = Some n /\ toInteger teamId = Some n.





(** A record whose id is the empty array: truthy, and rendered as the
    empty string. *)
Definition emptyArrayId : JsValue := JObj [("id", JArr [])].

(** The record's resolved status, lowercased, is [ready] or [wrap_up]. *)
Definition statusMatches (e : JsValue) : Prop :=
  exists v s,
    firstTruthy (statusLocations e) = Some v
    /\ toString v = Some s
    /\ (toLowerCase s = "ready" \/ toLowerCase s = "wrap_up").

(** A record whose first team-id location holds the number 0. *)
Definition zeroTeamFirst : JsValue :=
  JObj [("team_id", JNum 0); ("teamId", JNum 7)].

(** A record whose first status location holds the empty string. *)
Definition emptyStatusFirst : JsValue :=
  JObj [("status", JStr ""); ("state", JStr "ready")].

(** The files a run wrote: name and content, in order. *)
Definition filesWritten (t : list Event) : list (string * string) :=
  flat_map (fun ev => match ev with
                      | WriteFile _ fileName content => [(fileName, content)]
                      | _ => []
                      end) t.

(** The character [c] occurs in [s]. *)
Definition hasChar (c : ascii) (s : string) : Prop :=
  In c (list_ascii_of_string s).

(** [s] holds a comma, a double quote or a newline. *)
Definition special (s : string) : Prop :=
  hasChar comma s \/ hasChar dquote s \/ hasChar newline s.

(** [s] with every double quote written twice. *)
Definition doubled (s : string) : string :=
  string_of_list_ascii
    (flat_map (fun a => if Ascii.eqb a dquote then [a; a] else [a])
              (list_ascii_of_string s)).

(** [s] as a quoted CSV field. *)
Definition quoted (s : string) : string :=
  str1 dquote ++ doubled s ++ str1 dquote.

(** Reading a field back, after the convention the serializer writes in:
    halve each doubled double quote ... *)
Fixpoint halveQuotes (s : string) : string :=
  match s with
  | EmptyString => EmptyString
  | String a s1 =>
      if Ascii.eqb a dquote then
        match s1 with
        | String b s2 =>
            if Ascii.eqb b dquote then String dquote (halveQuotes s2)
            else String a (halveQuotes s1)
        | EmptyString => str1 a
        end
      else String a (halveQuotes s1)
  end.

(** ... inside a field that is wrapped in double quotes, whose content
    [unwrap] gives, ... *)
Definition unwrap (s : string) : option string :=
  match list_ascii_of_string s with
  | a :: rest =>
      match rev rest with
      | z :: body =>
          if Ascii.eqb a dquote && Ascii.eqb z dquote
          then Some (string_of_list_ascii (rev body))
          else None
      | [] => None
      end
  | [] => None
  end.

(** ... and take any other field verbatim. *)
Definition unescapeCsv (s : string) : string :=
  match unwrap s with
  | Some body => halveQuotes body
  | None => s
  end.

(** *** Vocabulary of the further properties *)

(** The rows a report computes for a list of records, without the
    printing. *)
Definition teamCsvRows (experiments : list JsValue) : option (list string) :=
  mapE (fun e => r ← Team.rowOf e; Team.csvRowOf r) experiments.

Definition readyCsvRows (experiments : list JsValue) : option (list string) :=
  mapE (fun e => r ← Ready.rowOf e; Ready.csvRowOf r) experiments.

(** The rows a run printed, in order. *)
Definition loggedRows (t : list Event) : list string :=
  flat_map (fun ev => match ev with
                      | ConsoleLog (LCsvRow row) => [row]
                      | _ => []
                      end) t.

(** Reading a CSV row: a double quote opens or closes a quoted stretch, and
    a comma outside a quoted stretch ends a field.  [splitRow inQ s] gives
    the fields of [s], still escaped, when the reader is inside a quoted
    stretch or not as [inQ] says. *)
Fixpoint splitRow (inQ : bool) (s : string) : list string :=
  match s with
  | EmptyString => [EmptyString]
  | String a s' =>
      if Ascii.eqb a comma && negb inQ then EmptyString :: splitRow false s'
      else
        match splitRow (if Ascii.eqb a dquote then negb inQ else inQ) s' with
        | [] => [str1 a]
        | f :: fs => String a f :: fs
        end
  end.

(** The fields of a row, read back. *)
Definition readRow (row : string) : list string :=
  map unescapeCsv (splitRow false row).

(** A value with no own [toString] property in any object it holds. *)
Fixpoint plain (v : JsValue) : bool :=
  match v with
  | JArr items =>
      (fix all (l : list JsValue) : bool :=
         match l with
         | [] => true
         | x :: l' => plain x && all l'
         end) items
  | JObj ps =>
      match lookupProp "toString" ps with
      | Some _ => false
      | None =>
          (fix all (l : list (string * JsValue)) : bool :=
             match l with
             | [] => true
             | (_, x) :: l' => plain x && all l'
             end) ps
      end
  | _ => true
  end.

(** The values that stand for a value of a payload: every [JNum] in them
    holds a safe integer, and the text of every [JNumText] is not empty and
    not the decimal digits of a safe integer (that number is the [JNum]).
    Every JSON value has such a representative. *)
Definition safeNumText (t : string) : bool :=
  negb (String.eqb t "")
  && match parseIntString t with
     | Some n => negb (String.eqb (pretty n) t && (Z.abs n <=? maxSafeInteger))
     | None => true
     end.

Fixpoint safe (v : JsValue) : bool :=
  match v with
  | JNum n => Z.abs n <=? maxSafeInteger
  | JNumText t => safeNumText t
  | JArr items =>
      (fix all (l : list JsValue) : bool :=
         match l with
         | [] => true
         | x :: l' => safe x && all l'
         end) items
  | JObj ps =>
      (fix all (l : list (string * JsValue)) : bool :=
         match l with
         | [] => true
         | (_, x) :: l' => safe x && all l'
         end) ps
  | _ => true
  end.

(** Where reading [s] from state [inQ] ends, if no comma of [s] ends a
    field on the way. *)
Fixpoint scan (inQ : bool) (s : string) : option bool :=
  match s with
  | EmptyString => Some inQ
  | String a s' =>
      if Ascii.eqb a comma && negb inQ then None
      else scan (if Ascii.eqb a dquote then negb inQ else inQ) s'
  end.

(** What a run does with the payload before it filters: on an array, the
    values found for the debugging list are collected and each distinct
    truthy one is stringified for printing. *)
Definition teamPrelude (data : JsValue) : option unit :=
  match data with
  | JArr items =>
      found ← mapE Team.teamIdOf items;
      _ ← mapE toString (setOf [] (filter (fun v => truthy v = true) found));
      Some tt
  | _ => Some tt
  end.

Definition readyPrelude (data : JsValue) : option unit :=
  match data with
  | JArr items =>
      found ← mapE Ready.statusOf items;
      _ ← mapE toString (setOf [] (filter (fun v => truthy v = true) found));
      Some tt
  | _ => Some tt
  end.

(** The rows of a run that gets to its end, [None] for a run that an
    exception or a failed request ends. *)
Definition teamRunRows (this : Team.Fetcher) (r : FetchOutcome) : option (list string) :=
  match r with
  | Fetched data =>
      _ ← teamPrelude data;
      kept ← outcome (Team.filterByTeam data (JStr (Team.teamId this)));
      teamCsvRows kept
  | _ => None
  end.

Definition readyRunRows (r : FetchOutcome) : option (list string) :=
  match r with
  | Fetched data =>
      _ ← readyPrelude data;
      kept ← outcome (Ready.filterByTargetStatuses data);
      readyCsvRows kept
  | _ => None
  end.

(** The strings among a list of values, in order. *)
Definition stringsOf (l : list JsValue) : list string :=
  flat_map (fun v => match v with JStr s => [s] | _ => [] end) l.

(** A clock and disk, and a payload of three records, for the examples. *)
Definition sampleWorld : World :=
  {| isoNow := "2024-01-15T10:00:00.000Z"; cwd := "/work"; writable := true |}.

Definition samplePayload : JsValue :=
  JArr [JObj [("name", JStr "Checkout Flow"); ("id", JStr "exp_456");
              ("team_id", JNum 123);
              ("owner", JObj [("name", JStr "Doe, John");
                              ("email", JStr "john@x.com")])];
        JObj [("name", JStr "Other"); ("id", JStr "exp_1"); ("team_id", JNum 5)];
        JObj [("title", JStr "Recs"); ("experiment_id", JNum 789);
              ("teamId", JStr "123"); ("created_by", JStr "jane@x.com");
              ("status", JStr "READY")]].

(** ** Lemmas on the string operations *)

Lemma list_ascii_app (s t : string) :
  list_ascii_of_string (s ++ t)
  = (list_ascii_of_string s ++ list_ascii_of_string t)%list.
Proof. induction s as [|a s IH]; simpl; [reflexivity | now rewrite IH]. Qed.

Lemma string_of_list_app (l m : list ascii) :
  string_of_list_ascii (l ++ m)%list
  = string_of_list_ascii l ++ string_of_list_ascii m.
Proof. induction l as [|a l IH]; simpl; [reflexivity | now rewrite IH]. Qed.

Lemma prefix_str1 (c : ascii) (s : string) :
  String.prefix (str1 c) s = true <-> exists s', s = String c s'.
Proof.
  destruct s as [|a s]; simpl.
  - split; [discriminate | intros [s' H]; discriminate].
  - destruct (ascii_dec c a) as [->|Hne].
    + split; [eauto | intros _]. now destruct s.
    + split; [discriminate | intros [s' H]; congruence].
Qed.

Lemma includes_char (c : ascii) (s : string) :
  includes (str1 c) s = true <-> hasChar c s.
Proof.
  unfold hasChar. induction s as [|a s IH].
  - simpl. split; [discriminate | tauto].
  - cbn [includes list_ascii_of_string In]. rewrite orb_true_iff, IH, prefix_str1.
    split.
    + intros [[s' H]|H]; [left; congruence | now right].
    + intros [H|H]; [left; exists s; now subst | now right].
Qed.

Lemma includes_char_false (c : ascii) (s : string) :
  includes (str1 c) s = false <-> ~ hasChar c s.
Proof.
  rewrite <- includes_char. destruct (includes (str1 c) s); split; congruence.
Qed.

#[local] Instance hasChar_dec c s : Decision (hasChar c s).
Proof.
  destruct (includes (str1 c) s) eqn:H.
  - left. now apply includes_char.
  - right. now apply includes_char_false.
Defined.

#[local] Instance special_dec s : Decision (special s).
Proof. unfold special. apply _. Defined.

Lemma replaceAll_doubled (s : string) :
  replaceAll dquote (str1 dquote ++ str1 dquote) s = doubled s.
Proof.
  unfold doubled. induction s as [|a s IH]; [reflexivity|].
  cbn [replaceAll list_ascii_of_string flat_map]. rewrite IH.
  destruct (Ascii.eqb_spec a dquote) as [->|Hne]; reflexivity.
Qed.

Lemma halveQuotes_doubled (s : string) : halveQuotes (doubled s) = s.
Proof.
  unfold doubled. induction s as [|a s IH]; [reflexivity|].
  cbn [list_ascii_of_string flat_map].
  destruct (Ascii.eqb_spec a dquote) as [->|Hne].
  - cbn [app string_of_list_ascii halveQuotes]. rewrite Ascii.eqb_refl.
    now rewrite IH.
  - cbn [app string_of_list_ascii halveQuotes].
    apply Ascii.eqb_neq in Hne. rewrite Hne. now rewrite IH.
Qed.

Lemma unwrap_quoted (s : string) : unwrap (quoted s) = Some (doubled s).
Proof.
  unfold unwrap, quoted. rewrite !list_ascii_app.
  cbn [str1 list_ascii_of_string app].
  rewrite rev_unit, Ascii.eqb_refl, rev_involutive. cbn [andb].
  now rewrite string_of_list_ascii_of_string.
Qed.

Lemma unwrap_plain (s : string) : ~ hasChar dquote s -> unwrap s = None.
Proof.
  unfold unwrap, hasChar. destruct (list_ascii_of_string s) as [|a rest]; [reflexivity|].
  intros H. destruct (rev rest); [reflexivity|].
  destruct (Ascii.eqb_spec a dquote) as [->|Hne]; [|reflexivity].
  exfalso. apply H. now left.
Qed.

Lemma quoted_hasChar (s : string) : hasChar dquote (quoted s).
Proof. unfold hasChar, quoted. simpl. now left. Qed.

(** ** The escape function *)

Lemma special_includes (s : string) :
  includes "," s || includes (str1 dquote) s || includes (str1 newline) s = true
  <-> special s.
Proof.
  unfold special. rewrite !orb_true_iff, <- !includes_char. unfold comma, str1. tauto.
Qed.

Lemma team_escapeCsv_eq (v : JsValue) :
  Team.escapeCsv v
  = s ← toString v; Some (if decide (special s) then quoted s else s).
Proof.
  unfold Team.escapeCsv.
  replace (match v with JStr s => Some s | _ => toString v end) with (toString v)
    by (destruct v; reflexivity).
  destruct (toString v) as [s|]; [|reflexivity]. cbn [mbind option_bind].
  destruct (decide (special s)) as [H|H].
  - apply special_includes in H. rewrite H. unfold quoted.
    now rewrite replaceAll_doubled.
  - destruct (includes "," s || includes (str1 dquote) s
              || includes (str1 newline) s) eqn:E; [|reflexivity].
    apply special_includes in E. contradiction.
Qed.

Lemma ready_escapeCsv_eq (v : JsValue) :
  Ready.escapeCsv v
  = s ← toString v; Some (if decide (special s) then quoted s else s).
Proof. exact (team_escapeCsv_eq v). Qed.

Lemma quoted_ne_plain (s : string) : ~ special s -> quoted s <> s.
Proof.
  intros H E. apply H. right; left. rewrite <- E. apply quoted_hasChar.
Qed.

(** C1.  Both copies of [escapeCsv] stringify the field value; when that
    yields [s], the result is [s] wrapped in double quotes with every inner
    double quote doubled if and only if [s] holds a comma, a double quote or
    a newline, and it is [s] itself otherwise.  A value whose
    stringification raises makes [escapeCsv] raise too. *)
Theorem escapeCsv_quotes_iff_special (v : JsValue) :
  (forall s, toString v = Some s ->
     exists out,
       Team.escapeCsv v = Some out /\ Ready.escapeCsv v = Some out
       /\ (out = quoted s <-> special s)
       /\ (~ special s -> out = s))
  /\ (toString v = None ->
      Team.escapeCsv v = None /\ Ready.escapeCsv v = None).
Proof.
  rewrite ready_escapeCsv_eq, team_escapeCsv_eq. split.
  - intros s ->. cbn [mbind option_bind].
    exists (if decide (special s) then quoted s else s).
    repeat split; try reflexivity.
    + destruct (decide (special s)) as [H|H]; [tauto|].
      intros E. symmetry in E. now apply quoted_ne_plain in E.
    + intros H. destruct (decide (special s)); [reflexivity | contradiction].
    + intros H. destruct (decide (special s)); [contradiction | reflexivity].
  - intros ->. split; reflexivity.
Qed.

Lemma escapeCsv_quotes_iff_special_witness :
  exists out,
    Team.escapeCsv (JStr "Doe, John") = Some out
    /\ out = str1 dquote ++ "Doe, John" ++ str1 dquote.
Proof.
  destruct (proj1 (escapeCsv_quotes_iff_special (JStr "Doe, John"))
                  "Doe, John" eq_refl) as (out & Hout & _ & Hiff & _).
  exists out. split; [exact Hout|].
  change (out = quoted "Doe, John"). apply Hiff.
  left. unfold hasChar. simpl. tauto.
Defined.

(** The two renderings the specification lists. *)
Example escapeCsv_examples :
  Ready.escapeCsv (JStr "O'Brien, Jr.")
  = Some (str1 dquote ++ "O'Brien, Jr." ++ str1 dquote)
  /\ Ready.escapeCsv (JStr ("Say " ++ str1 dquote ++ "hi" ++ str1 dquote))
     = Some (str1 dquote ++ "Say " ++ str1 dquote ++ str1 dquote ++ "hi"
             ++ str1 dquote ++ str1 dquote ++ str1 dquote)
  /\ Team.escapeCsv (JNum 42) = Some "42"
  /\ Team.escapeCsv (JArr [JNum 1; JNum 2])
     = Some (str1 dquote ++ "1,2" ++ str1 dquote)
  /\ Team.escapeCsv JUndefined = Some "undefined".
Proof. repeat split; reflexivity. Qed.

(** C10.  On strings, [escapeCsv] loses nothing: reading its output back
    (strip the wrapping double quotes and halve the doubled ones when the
    field is wrapped, take it verbatim otherwise) gives the string again;
    hence two strings with one rendering are equal. *)
Theorem escapeCsv_lossless :
  (forall s : string,
     exists out,
       Team.escapeCsv (JStr s) = Some out /\ Ready.escapeCsv (JStr s) = Some out
       /\ unescapeCsv out = s)
  /\ (forall s t : string,
        Team.escapeCsv (JStr s) = Team.escapeCsv (JStr t) -> s = t)
  /\ (forall s t : string,
        Ready.escapeCsv (JStr s) = Ready.escapeCsv (JStr t) -> s = t).
Proof.
  assert (Hround : forall s : string,
             unescapeCsv (if decide (special s) then quoted s else s) = s).
  { intros s. unfold unescapeCsv. destruct (decide (special s)) as [H|H].
    - rewrite unwrap_quoted. apply halveQuotes_doubled.
    - rewrite unwrap_plain; [reflexivity|]. intros Hq. apply H. right; now left. }
  assert (Hinj : forall s t : string,
             Team.escapeCsv (JStr s) = Team.escapeCsv (JStr t) -> s = t).
  { intros s t. rewrite !team_escapeCsv_eq. cbn [toString mbind option_bind].
    intros E. injection E as E. rewrite <- (Hround s), <- (Hround t). now rewrite E. }
  split; [|split; [exact Hinj | exact Hinj]].
  intros s. exists (if decide (special s) then quoted s else s).
  rewrite ready_escapeCsv_eq, team_escapeCsv_eq. cbn [toString mbind option_bind].
  repeat split. apply Hround.
Qed.

Lemma escapeCsv_lossless_witness :
  exists out,
    Ready.escapeCsv (JStr ("Say " ++ str1 dquote ++ "hi" ++ str1 dquote))
    = Some out
    /\ unescapeCsv out = "Say " ++ str1 dquote ++ "hi" ++ str1 dquote.
Proof.
  destruct (proj1 escapeCsv_lossless
                  ("Say " ++ str1 dquote ++ "hi" ++ str1 dquote))
    as (out & _ & Hready & Hback).
  exists out. split; [exact Hready | exact Hback].
Defined.

(** ** Ordered lookups *)

Lemma getProp_field (e : JsValue) (k : string) :
  nullish e = false -> getProp e k = Some (field e k).
Proof. destruct e; simpl; intros H; try discriminate; reflexivity. Qed.

Lemma getProp_nullish (e : JsValue) (k : string) :
  nullish e = true -> getProp e k = None.
Proof. destruct e; simpl; intros H; try discriminate; reflexivity. Qed.

Lemma getPropOpt_field (m : JsValue) (k : string) :
  getPropOpt m k = Some (field m k).
Proof. destruct m; reflexivity. Qed.

Lemma getMeta_field (e : JsValue) (k : string) :
  nullish e = false ->
  (m ← getProp e "metadata"; getPropOpt m k)
  = Some (field (field e "metadata") k).
Proof.
  intros H. rewrite getProp_field by assumption. cbn [mbind option_bind].
  apply getPropOpt_field.
Qed.

(** A chain [c1 || ... || cn || last] picks the first truthy [ci], and
    [last] when there is none. *)
Lemma orElse_chain (cands : list JsValue) (last : option JsValue) :
  foldr (fun c acc => Some c <||> acc) last cands
  = match firstTruthy cands with
    | Some v => Some v
    | None => last
    end.
Proof.
  unfold firstTruthy. induction cands as [|c cands IH]; [reflexivity|].
  cbn [foldr find]. unfold orElse at 1. cbn [mbind option_bind].
  destruct (truthy c); [reflexivity | exact IH].
Qed.

Lemma firstTruthy_truthy (cands : list JsValue) (v : JsValue) :
  firstTruthy cands = Some v -> truthy v = true.
Proof. intros H. apply find_some in H. tauto. Qed.

Lemma firstTruthy_snoc (cands : list JsValue) (c : JsValue) :
  default c (firstTruthy (cands ++ [c])%list)
  = default c (firstTruthy cands).
Proof.
  unfold firstTruthy. induction cands as [|x cands IH]; cbn [app find].
  - destruct (truthy c); reflexivity.
  - destruct (truthy x); [reflexivity | exact IH].
Qed.

Section Lookups.

Variable e : JsValue.
Hypothesis record : nullish e = false.

Lemma teamIdOf_eq :
  Team.teamIdOf e
  = Some (default (field (field e "metadata") "teamId")
                  (firstTruthy (teamLocations e))).
Proof.
  unfold Team.teamIdOf. rewrite !getMeta_field, !getProp_field by assumption.
  change (teamLocations e) with
    ([field e "team_id"; field e "teamId"; field e "owner_team_id";
      field e "ownerTeamId"; field (field e "metadata") "team_id"]
     ++ [field (field e "metadata") "teamId"])%list.
  rewrite firstTruthy_snoc.
  match goal with
  | |- ?lhs = _ =>
      change lhs with
        (foldr (fun c acc => Some c <||> acc)
               (Some (field (field e "metadata") "teamId"))
               [field e "team_id"; field e "teamId"; field e "owner_team_id";
                field e "ownerTeamId"; field (field e "metadata") "team_id"])
  end.
  rewrite orElse_chain. now destruct (firstTruthy _).
Qed.

Lemma statusOf_eq :
  Ready.statusOf e
  = Some (default (field (field e "metadata") "state")
                  (firstTruthy (statusLocations e))).
Proof.
  unfold Ready.statusOf. rewrite !getMeta_field, !getProp_field by assumption.
  change (statusLocations e) with
    ([field e "status"; field e "state"; field e "experiment_status";
      field (field e "metadata") "status"]
     ++ [field (field e "metadata") "state"])%list.
  rewrite firstTruthy_snoc.
  match goal with
  | |- ?lhs = _ =>
      change lhs with
        (foldr (fun c acc => Some c <||> acc)
               (Some (field (field e "metadata") "state"))
               [field e "status"; field e "state"; field e "experiment_status";
                field (field e "metadata") "status"])
  end.
  rewrite orElse_chain. now destruct (firstTruthy _).
Qed.

Lemma ownerSourceOf_eq :
  Team.ownerSourceOf e
  = Some (default (JObj []) (firstTruthy (ownerLocations e))).
Proof.
  unfold Team.ownerSourceOf. rewrite !getProp_field by assumption.
  match goal with
  | |- ?lhs = _ =>
      change lhs with
        (foldr (fun c acc => Some c <||> acc) (Some (JObj [])) (ownerLocations e))
  end.
  rewrite orElse_chain. now destruct (firstTruthy _).
Qed.

Lemma ownerName_chain_eq :
  (getProp e "name" <||> getProp e "full_name"
   <||> getProp e "displayName" <||> Some (JStr ""))
  = Some (default (JStr "") (firstTruthy (nameLocations e))).
Proof.
  rewrite !getProp_field by assumption.
  match goal with
  | |- ?lhs = _ =>
      change lhs with
        (foldr (fun c acc => Some c <||> acc) (Some (JStr "")) (nameLocations e))
  end.
  rewrite orElse_chain. now destruct (firstTruthy _).
Qed.

Lemma ownerEmail_chain_eq :
  (getProp e "email" <||> getProp e "email_address" <||> Some (JStr ""))
  = Some (default (JStr "") (firstTruthy (emailLocations e))).
Proof.
  rewrite !getProp_field by assumption.
  match goal with
  | |- ?lhs = _ =>
      change lhs with
        (foldr (fun c acc => Some c <||> acc) (Some (JStr "")) (emailLocations e))
  end.
  rewrite orElse_chain. now destruct (firstTruthy _).
Qed.

End Lookups.

(** ** Owner resolution *)

Lemma split_first (c : ascii) (s : string) :
  hasChar c s ->
  exists name rest,
    s = name ++ str1 c ++ rest /\ ~ hasChar c name
    /\ first (split c s) = JStr name.
Proof.
  unfold hasChar. induction s as [|a s IH]; cbn [list_ascii_of_string In split].
  - tauto.
  - intros H. destruct (Ascii.eqb_spec a c) as [->|Hne].
    + exists "", s. cbn. tauto.
    + destruct H as [H|H]; [contradiction|].
      destruct (IH H) as (name & rest & -> & Hno & Hfirst).
      exists (String a name), rest. split; [reflexivity|]. split.
      * cbn [list_ascii_of_string In]. intros [E|E]; [congruence | contradiction].
      * destruct (split c (name ++ str1 c ++ rest)) as [|p ps];
          cbn in Hfirst; [discriminate|]. cbn. congruence.
Qed.

Lemma resolveOwner_object (owner : JsValue) :
  typeof owner = "object" -> nullish owner = false ->
  Team.resolveOwner owner
  = Some {| ownerName := default (JStr "") (firstTruthy (nameLocations owner));
            ownerEmail := default (JStr "") (firstTruthy (emailLocations owner)) |}.
Proof.
  intros Hty Hnn. unfold Team.resolveOwner. rewrite Hty.
  replace (sameValueZero owner JNull) with false
    by (destruct owner; try reflexivity; discriminate).
  cbn [String.eqb Ascii.eqb Bool.eqb andb negb].
  rewrite ownerName_chain_eq, ownerEmail_chain_eq by assumption. reflexivity.
Qed.

(** C2.  For a record, the owner source is the first truthy (non-empty)
    value among [owner], [created_by], [createdBy], [author].  An object
    source gives as name the first truthy of [name], [full_name],
    [displayName] and as email the first truthy of [email],
    [email_address] (empty when there is none); a string source with an
    [@] is the email and its part before the first [@] is the name; a
    string source without [@] is the name, the email being empty; without a
    source both are empty.  Both scripts resolve the same owner. *)
Theorem owner_resolution (e : JsValue) :
  nullish e = false ->
  exists o,
    Team.ownerOf e = Some o /\ Ready.ownerOf e = Some o
    /\ match firstTruthy (ownerLocations e) with
       | Some (JObj ps) =>
           ownerName o
           = default (JStr "") (firstTruthy (nameLocations (JObj ps)))
           /\ ownerEmail o
              = default (JStr "") (firstTruthy (emailLocations (JObj ps)))
       | Some (JStr s) =>
           (hasChar atSign s ->
            ownerEmail o = JStr s
            /\ exists name rest,
                 s = name ++ str1 atSign ++ rest /\ ~ hasChar atSign name
                 /\ ownerName o = JStr name)
           /\ (~ hasChar atSign s ->
               ownerName o = JStr s /\ ownerEmail o = JStr "")
       | Some _ => ownerName o = JStr "" /\ ownerEmail o = JStr ""
       | None => ownerName o = JStr "" /\ ownerEmail o = JStr ""
       end.
Proof.
  intros He.
  assert (Hsame : Ready.ownerOf e = Team.ownerOf e) by reflexivity.
  rewrite Hsame. unfold Team.ownerOf. rewrite ownerSourceOf_eq by assumption.
  cbn [mbind option_bind].
  destruct (firstTruthy (ownerLocations e)) as [src|] eqn:Hsrc;
    unfold default; cbn [from_option id].
  - pose proof (firstTruthy_truthy _ _ Hsrc) as Htr.
    destruct src as [| |b|n|t|s|items|ps]; try discriminate Htr.
    + eexists. repeat split; reflexivity.
    + eexists. repeat split; reflexivity.
    + eexists. repeat split; reflexivity.
    + cbn [Team.resolveOwner typeof String.eqb Ascii.eqb Bool.eqb andb].
      destruct (includes "@" s) eqn:Hat.
      * apply (includes_char atSign) in Hat. eexists. split; [reflexivity|].
        split; [reflexivity|]. split; [|contradiction].
        intros _. split; [reflexivity|].
        destruct (split_first atSign s Hat) as (name & rest & Hs & Hno & Hfirst).
        exists name, rest. cbn [ownerName]. auto.
      * apply (includes_char_false atSign) in Hat. eexists. split; [reflexivity|].
        split; [reflexivity|]. split; [contradiction|].
        intros _. split; reflexivity.
    + eexists. repeat split; reflexivity.
    + rewrite resolveOwner_object by reflexivity. eexists. repeat split; reflexivity.
  - rewrite resolveOwner_object by reflexivity. eexists. repeat split; reflexivity.
Qed.

Lemma owner_resolution_witness :
  nullish (JObj [("name", JStr "Checkout"); ("created_by", JStr "bob@x.com")])
  = false
  /\ exists o,
       Team.ownerOf
         (JObj [("name", JStr "Checkout"); ("created_by", JStr "bob@x.com")])
       = Some o
       /\ ownerEmail o = JStr "bob@x.com".
Proof.
  split; [reflexivity|].
  destruct (owner_resolution
              (JObj [("name", JStr "Checkout"); ("created_by", JStr "bob@x.com")])
              eq_refl) as (o & Ho & _ & Hcase).
  exists o. split; [exact Ho|].
  simpl in Hcase. apply Hcase. unfold hasChar. simpl. tauto.
Defined.

(** The three resolutions the specification lists. *)
Example owner_examples :
  Team.ownerOf (JObj [("owner", JObj [("name", JStr "Jane Smith");
                                      ("email", JStr "jane@x.com")])])
  = Some {| ownerName := JStr "Jane Smith"; ownerEmail := JStr "jane@x.com" |}
  /\ Ready.ownerOf (JObj [("owner", JStr "bob@x.com")])
     = Some {| ownerName := JStr "bob"; ownerEmail := JStr "bob@x.com" |}
  /\ Ready.ownerOf (JObj [("owner", JStr "Bob")])
     = Some {| ownerName := JStr "Bob"; ownerEmail := JStr "" |}
  /\ Team.ownerOf (JObj [("id", JStr "exp_1")])
     = Some {| ownerName := JStr ""; ownerEmail := JStr "" |}.
Proof. repeat split; reflexivity. Qed.

(** ** What an ordered lookup returns *)

Lemma rowStatus_chain_eq (e : JsValue) :
  nullish e = false ->
  (getProp e "status" <||> getProp e "state" <||> getProp e "experiment_status"
   <||> (m ← getProp e "metadata"; getPropOpt m "status")
   <||> (m ← getProp e "metadata"; getPropOpt m "state")
   <||> Some (JStr ""))
  = Some (default (JStr "") (firstTruthy (statusLocations e))).
Proof.
  intros He. rewrite !getMeta_field, !getProp_field by assumption.
  match goal with
  | |- ?lhs = _ =>
      change lhs with
        (foldr (fun c acc => Some c <||> acc) (Some (JStr "")) (statusLocations e))
  end.
  rewrite orElse_chain. now destruct (firstTruthy _).
Qed.

(** C5, as stated, fails: the lookups test truthiness, so a candidate that
    is defined and non-null but falsy (the number 0, the empty string,
    [false]) is passed over for a later one.  With [team_id: 0] and
    [teamId: 7] the team id found is 7; with [status: ''] and
    [state: 'ready'] the status found is [ready]. *)
Lemma first_defined_is_skipped :
  firstDefined (teamLocations zeroTeamFirst) = Some (JNum 0)
  /\ Team.teamIdOf zeroTeamFirst = Some (JNum 7)
  /\ firstDefined (statusLocations emptyStatusFirst) = Some (JStr "")
  /\ Ready.statusOf emptyStatusFirst = Some (JStr "ready")
  /\ ~ (forall e v, nullish e = false ->
          firstDefined (teamLocations e) = Some v -> Team.teamIdOf e = Some v).
Proof.
  repeat split; try reflexivity.
  intros H. specialize (H zeroTeamFirst (JNum 0) eq_refl eq_refl). discriminate H.
Qed.

(** C5, amended.  On a record, every ordered lookup returns the first
    candidate that is truthy.  When no candidate is truthy the chain gives
    its last operand: the value at the last location for the team id and
    for the filter's status, the empty string for the row's status and for
    the owner's name and email, the empty object for the owner. *)
Theorem ordered_lookup_first_truthy (e : JsValue) :
  nullish e = false ->
  Team.teamIdOf e
  = Some (default (field (field e "metadata") "teamId")
                  (firstTruthy (teamLocations e)))
  /\ Ready.statusOf e
     = Some (default (field (field e "metadata") "state")
                     (firstTruthy (statusLocations e)))
  /\ (forall r, Ready.rowOf e = Some r ->
        Ready.experimentStatus r
        = default (JStr "") (firstTruthy (statusLocations e)))
  /\ Team.ownerSourceOf e
     = Some (default (JObj []) (firstTruthy (ownerLocations e)))
  /\ Ready.ownerSourceOf e
     = Some (default (JObj []) (firstTruthy (ownerLocations e)))
  /\ (forall owner, typeof owner = "object" -> nullish owner = false ->
        exists o,
          Team.resolveOwner owner = Some o /\ Ready.resolveOwner owner = Some o
          /\ ownerName o
             = default (JStr "") (firstTruthy (nameLocations owner))
          /\ ownerEmail o
             = default (JStr "") (firstTruthy (emailLocations owner))).
Proof.
  intros He. split; [now apply teamIdOf_eq|]. split; [now apply statusOf_eq|].
  split.
  { intros r. unfold Ready.rowOf.
    destruct (getProp e "name" <||> _) as [name|]; [|discriminate].
    cbn [mbind option_bind].
    destruct (getProp e "id" <||> _) as [id|]; [|discriminate].
    cbn [mbind option_bind]. rewrite rowStatus_chain_eq by assumption.
    cbn [mbind option_bind].
    destruct (Ready.ownerOf e) as [o|]; [|discriminate]. cbn [mbind option_bind].
    destruct (if truthy id then _ else _) as [url|]; [|discriminate].
    cbn [mbind option_bind]. intros [= <-]. reflexivity. }
  split; [now apply ownerSourceOf_eq|].
  split; [exact (ownerSourceOf_eq e He)|].
  intros owner Hty Hnn. eexists.
  split; [now apply resolveOwner_object|].
  split; [exact (resolveOwner_object owner Hty Hnn)|].
  split; reflexivity.
Qed.

Lemma ordered_lookup_first_truthy_witness :
  nullish zeroTeamFirst = false
  /\ Team.teamIdOf zeroTeamFirst
     = Some (default (field (field zeroTeamFirst "metadata") "teamId")
                     (firstTruthy (teamLocations zeroTeamFirst))).
Proof.
  split; [reflexivity|].
  exact (proj1 (ordered_lookup_first_truthy zeroTeamFirst eq_refl)).
Defined.

(** ** The filters *)

Lemma filterM_filter {A} (cb : A -> option bool) (l out : list A) :
  filterM cb l = Some out ->
  out = filter (fun x => cb x = Some true) l.
Proof.
  revert out. induction l as [|x l IH]; intros out; cbn [filterM].
  - now intros [= <-].
  - destruct (cb x) as [b|] eqn:Hb; [|discriminate]. cbn [mbind option_bind].
    destruct (filterM cb l) as [r|]; [|discriminate]. cbn [mbind option_bind].
    intros [= <-]. specialize (IH r eq_refl). subst r.
    destruct b.
    + rewrite filter_cons_True by assumption. reflexivity.
    + rewrite filter_cons_False by congruence. reflexivity.
Qed.

Lemma filterM_total {A} (cb : A -> option bool) (l : list A) :
  Forall (fun x => is_Some (cb x)) l <-> is_Some (filterM cb l).
Proof.
  induction l as [|x l IH]; cbn [filterM].
  - split; [intros _; eexists; reflexivity | constructor].
  - rewrite Forall_cons, IH. split.
    + intros [[b ->] [r ->]]. eexists; reflexivity.
    + destruct (cb x); cbn [mbind option_bind]; [|intros [? [=]]].
      destruct (filterM cb l); cbn [mbind option_bind]; [|intros [? [=]]].
      intros _. split; eexists; reflexivity.
Qed.

Lemma filterM_sublist {A} (cb : A -> option bool) (l out : list A) :
  filterM cb l = Some out -> sublist out l.
Proof.
  intros H. apply filterM_filter in H. subst out. apply sublist_filter.
Qed.

Lemma firstTruthy_none (cands : list JsValue) (c : JsValue) :
  firstTruthy cands = None -> In c cands -> truthy c = false.
Proof.
  intros H Hin. unfold firstTruthy in H.
  apply (find_none _ _ H) in Hin. exact Hin.
Qed.

Lemma truthy_not_nullish (v : JsValue) : truthy v = true -> nullish v = false.
Proof. destruct v; simpl; congruence. Qed.

Lemma isTarget_iff (s : string) :
  Ready.isTarget s = true <-> s = "ready" \/ s = "wrap_up".
Proof.
  unfold Ready.isTarget, Ready.targetStatuses. cbn [existsb].
  rewrite !orb_true_iff, !String.eqb_eq. intuition discriminate.
Qed.

Lemma hasTargetStatus_eq (e : JsValue) :
  nullish e = false ->
  Ready.hasTargetStatus e
  = match firstTruthy (statusLocations e) with
    | Some v => s ← toString v; Some (Ready.isTarget (toLowerCase s))
    | None => Some false
    end.
Proof.
  intros He. unfold Ready.hasTargetStatus. rewrite statusOf_eq by assumption.
  cbn [mbind option_bind].
  destruct (firstTruthy (statusLocations e)) as [v|] eqn:Hv;
    unfold default; cbn [from_option id].
  - pose proof (firstTruthy_truthy _ _ Hv) as Htr. rewrite Htr. cbn [negb].
    unfold toStringMethod. now rewrite (truthy_not_nullish _ Htr).
  - rewrite (firstTruthy_none _ _ Hv); [reflexivity|].
    unfold statusLocations. cbn. tauto.
Qed.

Lemma hasTargetStatus_nullish (e : JsValue) :
  nullish e = true -> Ready.hasTargetStatus e = None.
Proof. destruct e; try discriminate; reflexivity. Qed.

Lemma hasTargetStatus_true_iff (e : JsValue) :
  Ready.hasTargetStatus e = Some true <-> statusMatches e.
Proof.
  unfold statusMatches. destruct (nullish e) eqn:He.
  - rewrite hasTargetStatus_nullish by assumption. split; [discriminate|].
    intros (v & s & Hv & _). destruct e; discriminate.
  - rewrite hasTargetStatus_eq by assumption.
    destruct (firstTruthy (statusLocations e)) as [v|].
    + destruct (toString v) as [s|] eqn:Hs; cbn [mbind option_bind].
      * split.
        -- intros [= H]. apply isTarget_iff in H. exists v, s. auto.
        -- intros (v' & s' & [= <-] & Hs' & H). rewrite Hs in Hs'.
           injection Hs' as <-. f_equal. now apply isTarget_iff.
      * split; [discriminate|]. intros (v' & s' & [= <-] & Hs' & _). congruence.
    + split; [discriminate|]. intros (v' & s' & [=] & _).
Qed.

(** C3.  The status filter's callback keeps a record exactly when the
    status resolved from [status], [state], [experiment_status],
    [metadata.status], [metadata.state] (the first truthy one), once
    lowercased, is [ready] or [wrap_up]; so the records of the filter's
    output are the input records that match.  A record with no status is
    dropped, and so is one whose status is [READY_SOON].  The filter
    returns whenever no record is [null] and every status found can be
    stringified. *)
Theorem status_filter_keeps_iff :
  (forall e, Ready.hasTargetStatus e = Some true <-> statusMatches e)
  /\ (forall items out,
        outcome (Ready.filterByTargetStatuses (JArr items)) = Some out ->
        forall e, e ∈ out <-> e ∈ items /\ statusMatches e)
  /\ (forall e, nullish e = false ->
        firstTruthy (statusLocations e) = None ->
        Ready.hasTargetStatus e = Some false)
  /\ (forall e, firstTruthy (statusLocations e) = Some (JStr "READY_SOON") ->
        Ready.hasTargetStatus e = Some false)
  /\ (forall items,
        Forall (fun e => nullish e = false
                         /\ forall v, firstTruthy (statusLocations e) = Some v ->
                                      is_Some (toString v)) items ->
        exists out,
          Ready.filterByTargetStatuses (JArr items) = ([], Some out)).
Proof.
  split; [exact hasTargetStatus_true_iff|]. split.
  { intros items out H e. cbn in H. apply filterM_filter in H. subst out.
    rewrite list_elem_of_filter, hasTargetStatus_true_iff. tauto. }
  split.
  { intros e He Hnone. rewrite hasTargetStatus_eq by assumption.
    now rewrite Hnone. }
  split.
  { intros e H. assert (He : nullish e = false) by (destruct e; try reflexivity; discriminate).
    rewrite hasTargetStatus_eq by assumption. rewrite H. reflexivity. }
  intros items Hall.
  assert (Hsome : is_Some (filterM Ready.hasTargetStatus items)).
  { apply filterM_total. eapply Forall_impl; [exact Hall|].
    intros e [He Hv]. cbn beta. rewrite hasTargetStatus_eq by assumption.
    destruct (firstTruthy (statusLocations e)) as [v|]; [|eexists; reflexivity].
    destruct (Hv v eq_refl) as [s ->]. eexists; reflexivity. }
  destruct Hsome as [out Hout]. exists out. cbn. now rewrite Hout.
Qed.

Lemma status_filter_keeps_iff_witness :
  exists out,
    Ready.filterByTargetStatuses
      (JArr [JObj [("status", JStr "Ready")];
             JObj [("state", JStr "READY_SOON")]])
    = ([], Some out)
    /\ JObj [("status", JStr "Ready")] ∈ out
    /\ ~ JObj [("state", JStr "READY_SOON")] ∈ out.
Proof.
  destruct status_filter_keeps_iff as (Hcb & Hout & _ & Hsoon & Htotal).
  destruct (Htotal [JObj [("status", JStr "Ready")];
                    JObj [("state", JStr "READY_SOON")]]) as [out Hrun].
  { repeat constructor; intros v [= <-]; eexists; reflexivity. }
  exists out. split; [exact Hrun|].
  pose proof (Hout _ out (f_equal snd Hrun)) as Hmem. split.
  - apply Hmem. split; [apply list_elem_of_here|].
    exists (JStr "Ready"), "Ready". repeat split. now left.
  - intros Hin. apply Hmem in Hin. destruct Hin as [_ Hmatch].
    apply Hcb in Hmatch.
    rewrite (Hsoon (JObj [("state", JStr "READY_SOON")]) eq_refl) in Hmatch.
    discriminate.
Defined.

Example status_filter_examples :
  Ready.filterByTargetStatuses
    (JArr [JObj [("id", JStr "a"); ("status", JStr "READY")];
           JObj [("id", JStr "b"); ("status", JStr "READY_SOON")];
           JObj [("id", JStr "c"); ("metadata", JObj [("state", JStr "Wrap_Up")])];
           JObj [("id", JStr "d")];
           JStr "ready"])
  = ([], Some [JObj [("id", JStr "a"); ("status", JStr "READY")];
               JObj [("id", JStr "c"); ("metadata", JObj [("state", JStr "Wrap_Up")])]])
  /\ outcome (Ready.filterByTargetStatuses (JArr [JNull])) = None.
Proof. split; reflexivity. Qed.

Lemma inTeam_eq (teamId e : JsValue) :
  nullish e = false ->
  Team.inTeam teamId e
  = a ← parseInt (resolvedTeamId e); b ← parseInt teamId; Some (numStrictEq a b).
Proof.
  intros He. unfold Team.inTeam. now rewrite teamIdOf_eq by assumption.
Qed.

Lemma inTeam_nullish (teamId e : JsValue) :
  nullish e = true -> Team.inTeam teamId e = None.
Proof. destruct e; try discriminate; reflexivity. Qed.

Lemma resolvedTeamId_nullish (e : JsValue) :
  nullish e = true -> resolvedTeamId e = JUndefined.
Proof. destruct e; try discriminate; reflexivity. Qed.

Lemma numStrictEq_true (a b : option Z) :
  numStrictEq a b = true <-> exists n, a = Some n /\ b = Some n.
Proof.
  destruct a as [x|], b as [y|]; cbn [numStrictEq].
  - rewrite Z.eqb_eq. split; [intros ->; eauto | intros (n & [= ->] & [= ->]); reflexivity].
  - split; [discriminate | intros (n & _ & [=])].
  - split; [discriminate | intros (n & [=] & _)].
  - split; [discriminate | intros (n & [=] & _)].
Qed.

Lemma inTeam_true_iff (teamId e : JsValue) :
  Team.inTeam teamId e = Some true <-> teamMatches teamId e.
Proof.
  unfold teamMatches, toInteger. destruct (nullish e) eqn:He.
  - rewrite inTeam_nullish, resolvedTeamId_nullish by assumption.
    split; [discriminate | intros (n & [=] & _)].
  - rewrite inTeam_eq by assumption. unfold parseInt.
    destruct (toString (resolvedTeamId e)) as [s|]; cbn [mbind option_bind];
      [|split; [discriminate | intros (n & [=] & _)]].
    destruct (toString teamId) as [t|]; cbn [mbind option_bind];
      [|split; [discriminate | intros (n & _ & [=])]].
    rewrite <- numStrictEq_true. split; [now intros [= ->] | now intros ->].
Qed.

Lemma safe_arr (items : list JsValue) :
  safe (JArr items) = forallb safe items.
Proof. reflexivity. Qed.

Lemma safe_obj (ps : list (string * JsValue)) :
  safe (JObj ps) = forallb (fun kv => safe (snd kv)) ps.
Proof.
  cbn [safe]. induction ps as [|[k x] l IH]; [reflexivity|].
  cbn [forallb snd]. now rewrite IH.
Qed.

Lemma safe_field (v : JsValue) (k : string) :
  safe v = true -> safe (field v k) = true.
Proof.
  destruct v as [| |b|n|t|s|items|ps]; try reflexivity.
  rewrite safe_obj. cbn [field]. intros Hall.
  destruct (lookupProp k ps) as [x|] eqn:Hx; [|reflexivity].
  cbn [default from_option id]. revert Hall Hx.
  induction ps as [|[k' y] l IH]; cbn [lookupProp forallb snd]; [discriminate|].
  rewrite andb_true_iff. intros [Hy Hl].
  destruct (String.eqb k k'); [now intros [= <-] | now apply IH].
Qed.









(** [parseInt] on the shapes an identifier takes. *)
Example parseInt_examples :
  parseInt (JStr "123") = Some (Some 123)
  /\ parseInt (JNum 123) = Some (Some 123)
  /\ parseInt (JStr "  -42px") = Some (Some (-42))
  /\ parseInt (JStr "0x1A") = Some (Some 26)
  /\ parseInt (JStr "team-7") = Some None
  /\ parseInt JUndefined = Some None
  /\ parseInt (JArr [JNum 12; JNum 3]) = Some (Some 12)
  /\ parseInt (JObj [("toString", JNull)]) = None.
Proof. repeat split; reflexivity. Qed.

(** The result is a double: from 2^53 on an integer is rounded to the
    nearest one, a tie going to the even significand, so distinct digit
    texts can coerce to one number; a number printed in exponent form
    coerces to its leading digits; digits past the largest double give
    [Infinity], which equals itself. *)
Example parseInt_double_examples :
  parseInt (JStr "9007199254740991") = Some (Some 9007199254740991)
  /\ parseInt (JStr "9007199254740993") = Some (Some 9007199254740992)
  /\ parseInt (JStr "9007199254740995") = Some (Some 9007199254740996)
  /\ parseInt (JStr "-9007199254740993") = Some (Some (-9007199254740992))
  /\ parseInt (JStr "0x20000000000001") = Some (Some 9007199254740992)
  /\ parseInt (JNumText "1e+21") = Some (Some 1)
  /\ parseInt (JNumText "1.5") = Some (Some 1)
  /\ parseInt (JNumText "Infinity") = Some None
  /\ Team.inTeam (JStr "9007199254740992")
                 (JObj [("team_id", JStr "9007199254740993")]) = Some true
  /\ Team.inTeam (JStr "9007199254740992")
                 (JObj [("team_id", JNumText "9007199254740992")]) = Some true
  /\ Team.inTeam (JStr "9007199254740992")
                 (JObj [("team_id", JStr "9007199254740991")]) = Some false.
Proof. repeat split; vm_compute; reflexivity. Qed.

(** Numeric and textual identifiers match alike; text that does not start
    with an integer never matches, nor does a missing identifier. *)
Example team_filter_examples :
  Team.filterByTeam
    (JArr [JObj [("id", JStr "a"); ("team_id", JNum 123)];
           JObj [("id", JStr "b"); ("teamId", JStr "123")];
           JObj [("id", JStr "c"); ("team_id", JNum 7)];
           JObj [("id", JStr "d"); ("metadata", JObj [("team_id", JStr "123abc")])];
           JObj [("id", JStr "e"); ("owner_team_id", JStr "growth")];
           JObj [("id", JStr "f")]])
    (JStr "123")
  = ([], Some [JObj [("id", JStr "a"); ("team_id", JNum 123)];
               JObj [("id", JStr "b"); ("teamId", JStr "123")];
               JObj [("id", JStr "d"); ("metadata", JObj [("team_id", JStr "123abc")])]])
  /\ Team.filterByTeam (JArr [JObj [("team_id", JStr "growth")]]) (JStr "growth")
     = ([], Some []).
Proof. split; reflexivity. Qed.

(** ** Rows *)

Lemma id_chain_eq (e : JsValue) :
  nullish e = false ->
  (getProp e "id" <||> getProp e "experiment_id" <||> Some (JStr ""))
  = Some (resolvedId e).
Proof.
  intros He. rewrite !getProp_field by assumption.
  match goal with
  | |- ?lhs = _ =>
      change lhs with
        (foldr (fun c acc => Some c <||> acc) (Some (JStr "")) (idLocations e))
  end.
  rewrite orElse_chain. unfold resolvedId. now destruct (firstTruthy _).
Qed.

Lemma resolvedId_cases (e : JsValue) :
  (truthy (resolvedId e) = true /\ resolvedId e <> JStr "")
  \/ (truthy (resolvedId e) = false /\ resolvedId e = JStr "").
Proof.
  unfold resolvedId. destruct (firstTruthy (idLocations e)) as [v|] eqn:Hv.
  - left. apply firstTruthy_truthy in Hv. cbn. split; [assumption|].
    intros ->. discriminate.
  - right. split; reflexivity.
Qed.

Lemma urlPrefix_nonempty (s : string) : urlPrefix ++ s <> "".
Proof. discriminate. Qed.

Lemma team_rowOf_inv (e : JsValue) (r : Team.Row) :
  Team.rowOf e = Some r ->
  nullish e = false
  /\ Team.experimentId r = resolvedId e
  /\ (if truthy (resolvedId e)
      then s ← toString (resolvedId e); Some (urlPrefix ++ s)
      else Some "") = Some (Team.experimentUrl r).
Proof.
  destruct (nullish e) eqn:He.
  { unfold Team.rowOf. rewrite (getProp_nullish e "name") by assumption. discriminate. }
  unfold Team.rowOf.
  destruct (getProp e "name" <||> _) as [name|]; [|discriminate].
  cbn [mbind option_bind]. rewrite id_chain_eq by assumption.
  cbn [mbind option_bind].
  destruct (Team.ownerOf e) as [o|]; [|discriminate]. cbn [mbind option_bind].
  destruct (if truthy (resolvedId e) then _ else _) as [url|]; [|discriminate].
  cbn [mbind option_bind]. intros [= <-]. auto.
Qed.

Lemma ready_rowOf_inv (e : JsValue) (r : Ready.Row) :
  Ready.rowOf e = Some r ->
  nullish e = false
  /\ Ready.experimentId r = resolvedId e
  /\ (if truthy (resolvedId e)
      then s ← toString (resolvedId e); Some (urlPrefix ++ s)
      else Some "") = Some (Ready.experimentUrl r).
Proof.
  destruct (nullish e) eqn:He.
  { unfold Ready.rowOf. rewrite (getProp_nullish e "name") by assumption. discriminate. }
  unfold Ready.rowOf.
  destruct (getProp e "name" <||> _) as [name|]; [|discriminate].
  cbn [mbind option_bind]. rewrite id_chain_eq by assumption.
  cbn [mbind option_bind]. rewrite rowStatus_chain_eq by assumption.
  cbn [mbind option_bind].
  destruct (Ready.ownerOf e) as [o|]; [|discriminate]. cbn [mbind option_bind].
  destruct (if truthy (resolvedId e) then _ else _) as [url|]; [|discriminate].
  cbn [mbind option_bind]. intros [= <-]. auto.
Qed.

Lemma url_of_id (id : JsValue) (url : string) :
  (truthy id = true /\ id <> JStr "") \/ (truthy id = false /\ id = JStr "") ->
  (if truthy id then s ← toString id; Some (urlPrefix ++ s) else Some "")
  = Some url ->
  (url = "" <-> id = JStr "")
  /\ (id <> JStr "" ->
      exists s, toString id = Some s /\ url = urlPrefix ++ s).
Proof.
  intros [[Ht Hne]|[Ht ->]]; rewrite Ht.
  - destruct (toString id) as [s|]; cbn [mbind option_bind]; [|discriminate].
    intros [= <-]. split.
    + split; [intros H; now apply urlPrefix_nonempty in H | contradiction].
    + intros _. eauto.
  - intros [= <-]. split; [tauto | contradiction].
Qed.

Lemma name_chain_some (e : JsValue) :
  nullish e = false ->
  is_Some (getProp e "name" <||> getProp e "title"
           <||> Some (JStr "Unnamed Experiment")).
Proof.
  intros He. rewrite !getProp_field by assumption. unfold orElse.
  cbn [mbind option_bind].
  destruct (truthy (field e "name")); [eexists; reflexivity|].
  destruct (truthy (field e "title")); eexists; reflexivity.
Qed.

Lemma resolveOwner_some (owner : JsValue) :
  nullish owner = false -> is_Some (Team.resolveOwner owner).
Proof.
  intros Hnn. destruct owner as [| |b|n|t|s|items|ps]; try discriminate Hnn.
  - eexists; reflexivity.
  - eexists; reflexivity.
  - eexists; reflexivity.
  - cbn. destruct (includes "@" s); eexists; reflexivity.
  - rewrite resolveOwner_object by reflexivity. eexists; reflexivity.
  - rewrite resolveOwner_object by reflexivity. eexists; reflexivity.
Qed.

Lemma ownerOf_some (e : JsValue) :
  nullish e = false -> is_Some (Team.ownerOf e).
Proof.
  intros He. unfold Team.ownerOf. rewrite ownerSourceOf_eq by assumption.
  cbn [mbind option_bind]. apply resolveOwner_some.
  destruct (firstTruthy (ownerLocations e)) as [v|] eqn:Hv; [|reflexivity].
  apply firstTruthy_truthy in Hv. now apply truthy_not_nullish.
Qed.

Lemma pretty_N_go_nonempty (x : N) (s : string) :
  s <> "" -> pretty_N_go x s <> "".
Proof.
  revert s. induction x as [x IH] using (well_founded_induction N.lt_wf_0).
  intros s Hs. destruct (decide (x = 0)%N) as [->|Hx].
  - now rewrite pretty_N_go_0.
  - rewrite pretty_N_go_step by lia. apply IH; [apply N.div_lt; lia | discriminate].
Qed.

Lemma pretty_nonempty (n : Z) : pretty n <> "".
Proof.
  destruct n as [|p|p]; [discriminate| |discriminate].
  change (pretty (Z.pos p)) with (pretty_N_go (N.pos p) "").
  rewrite pretty_N_go_step by lia. apply pretty_N_go_nonempty. discriminate.
Qed.

Lemma toString_nonempty (v : JsValue) (s : string) :
  truthy v = true -> safe v = true -> isArray v = false ->
  toString v = Some s -> s <> "".
Proof.
  destruct v as [| |[|]|n|t|x|items|ps]; cbn [truthy isArray toString];
    try discriminate.
  - intros _ _ _ [= <-]. discriminate.
  - intros _ _ _ [= <-]. apply pretty_nonempty.
  - intros _ Hsafe _ [= <-]. cbn [safe] in Hsafe. unfold safeNumText in Hsafe.
    apply andb_true_iff in Hsafe. destruct Hsafe as [Hne _].
    apply negb_true_iff, String.eqb_neq in Hne. exact Hne.
  - intros Hne _ _ [= <-]. now apply negb_true_iff, String.eqb_neq in Hne.
  - intros _ _ _. destruct (lookupProp "toString" ps); [discriminate|].
    intros [= <-]. discriminate.
Qed.

Lemma safe_resolvedId (e : JsValue) :
  safe e = true -> safe (resolvedId e) = true.
Proof.
  intros He. unfold resolvedId.
  destruct (firstTruthy (idLocations e)) as [v|] eqn:Hv; [|reflexivity].
  unfold firstTruthy in Hv. apply find_some in Hv. destruct Hv as [Hin _].
  unfold idLocations in Hin. cbn [In] in Hin.
  destruct Hin as [<-|[<-|[]]]; now apply safe_field.
Qed.

Lemma url_of_row (e : JsValue) (url : string) :
  (if truthy (resolvedId e)
   then s ← toString (resolvedId e); Some (urlPrefix ++ s)
   else Some "") = Some url ->
  (url = "" <-> firstTruthy (idLocations e) = None)
  /\ (url = "" <-> resolvedId e = JStr "")
  /\ exists s,
       toString (resolvedId e) = Some s
       /\ (resolvedId e <> JStr "" -> url = urlPrefix ++ s)
       /\ (safe e = true -> isArray (resolvedId e) = false ->
           (url = "" <-> s = "")).
Proof.
  intros Hurl.
  assert (Hnone : firstTruthy (idLocations e) = None <-> resolvedId e = JStr "").
  { unfold resolvedId. destruct (firstTruthy (idLocations e)) as [v|] eqn:Hv.
    - apply firstTruthy_truthy in Hv. cbn [default from_option id].
      split; [discriminate | intros ->; discriminate].
    - split; reflexivity. }
  destruct (url_of_id _ _ (resolvedId_cases e) Hurl) as [Hiff Hpre].
  split; [now rewrite Hnone|]. split; [exact Hiff|].
  destruct (resolvedId_cases e) as [[Ht Hne]|[Ht Hid]].
  - destruct (Hpre Hne) as (s & Hs & Hu). exists s. split; [exact Hs|].
    split; [intros _; exact Hu|]. intros Hsafe Harr. split.
    + intros H0. now apply Hiff in H0.
    + intros H0. exfalso.
      exact (toString_nonempty _ s Ht (safe_resolvedId e Hsafe) Harr Hs H0).
  - exists "". rewrite Hid. split; [reflexivity|]. split; [contradiction|].
    intros _ _. rewrite Hiff, Hid. tauto.
Qed.

(** C6, as stated, fails on a record whose id is the empty array: the
    array is truthy, so the url is built, and it is rendered as the empty
    string, so the row both scripts print has an empty experiment id and
    the url [https://eppo.cloud/experiments/]. *)
Lemma empty_array_id_has_url :
  (exists r,
     Team.rowOf emptyArrayId = Some r
     /\ toString (Team.experimentId r) = Some ""
     /\ Team.experimentUrl r = "https://eppo.cloud/experiments/"
     /\ Team.csvRowOf r
        = Some "Unnamed Experiment,,,,https://eppo.cloud/experiments/")
  /\ (exists r,
        Ready.rowOf emptyArrayId = Some r
        /\ toString (Ready.experimentId r) = Some ""
        /\ Ready.experimentUrl r = "https://eppo.cloud/experiments/"
        /\ Ready.csvRowOf r
           = Some ",,Unnamed Experiment,,,https://eppo.cloud/experiments/")
  /\ ~ (forall e r s,
          Team.rowOf e = Some r -> toString (Team.experimentId r) = Some s ->
          (Team.experimentUrl r = "" <-> s = "")).
Proof.
  split; [|split].
  - eexists. split; [reflexivity|]. repeat split; reflexivity.
  - eexists. split; [reflexivity|]. repeat split; reflexivity.
  - intros H.
    destruct (Team.rowOf emptyArrayId) as [r|] eqn:Hr; [|discriminate Hr].
    specialize (H emptyArrayId r "" Hr).
    injection Hr as <-. cbn in H.
    destruct (H eq_refl) as [_ H0]. specialize (H0 eq_refl). discriminate H0.
Qed.

(** C6, amended.  In every row either script computes, the experiment id
    is the first truthy of [id] and [experiment_id], or the empty string
    when neither is truthy.  The url is empty exactly when neither is
    truthy, which is exactly when the row's id is the empty string; for any
    other id it is [https://eppo.cloud/experiments/] followed by the id as
    printed.  So, on the values of a payload ([safe]), the url is empty
    exactly when the printed id is, for every id that is not an array.  A
    record has a row as soon as it is not [null] and its id can be
    stringified. *)
Theorem url_empty_iff_no_id (e : JsValue) :
  (forall r, Team.rowOf e = Some r ->
     Team.experimentId r = resolvedId e
     /\ (Team.experimentUrl r = "" <-> firstTruthy (idLocations e) = None)
     /\ (Team.experimentUrl r = "" <-> Team.experimentId r = JStr "")
     /\ exists s,
          toString (Team.experimentId r) = Some s
          /\ (Team.experimentId r <> JStr "" ->
              Team.experimentUrl r = urlPrefix ++ s)
          /\ (safe e = true -> isArray (Team.experimentId r) = false ->
              (Team.experimentUrl r = "" <-> s = "")))
  /\ (forall r, Ready.rowOf e = Some r ->
        Ready.experimentId r = resolvedId e
        /\ (Ready.experimentUrl r = "" <-> firstTruthy (idLocations e) = None)
        /\ (Ready.experimentUrl r = "" <-> Ready.experimentId r = JStr "")
        /\ exists s,
             toString (Ready.experimentId r) = Some s
             /\ (Ready.experimentId r <> JStr "" ->
                 Ready.experimentUrl r = urlPrefix ++ s)
             /\ (safe e = true -> isArray (Ready.experimentId r) = false ->
                 (Ready.experimentUrl r = "" <-> s = "")))
  /\ (nullish e = false -> is_Some (toString (resolvedId e)) ->
      is_Some (Team.rowOf e) /\ is_Some (Ready.rowOf e)).
Proof.
  split; [|split].
  - intros r H. apply team_rowOf_inv in H. destruct H as (_ & Hid & Hurl).
    split; [exact Hid|]. rewrite Hid. exact (url_of_row e _ Hurl).
  - intros r H. apply ready_rowOf_inv in H. destruct H as (_ & Hid & Hurl).
    split; [exact Hid|]. rewrite Hid. exact (url_of_row e _ Hurl).
  - intros He [s Hs].
    destruct (name_chain_some e He) as [name Hname].
    destruct (ownerOf_some e He) as [o Ho].
    assert (Ho' : Ready.ownerOf e = Some o) by exact Ho.
    unfold Team.rowOf, Ready.rowOf.
    rewrite Hname. cbn [mbind option_bind].
    rewrite id_chain_eq by assumption. cbn [mbind option_bind].
    rewrite rowStatus_chain_eq by assumption. cbn [mbind option_bind].
    rewrite Ho, Ho', Hs. cbn [mbind option_bind].
    split; destruct (truthy (resolvedId e)); eexists; reflexivity.
Qed.

Lemma url_empty_iff_no_id_witness :
  exists r,
    Team.rowOf (JObj [("id", JStr "exp_456")]) = Some r
    /\ Team.experimentUrl r = "https://eppo.cloud/experiments/exp_456"
    /\ Team.experimentUrl r <> "".
Proof.
  destruct (url_empty_iff_no_id (JObj [("id", JStr "exp_456")]))
    as (Hteam & _ & Htotal).
  destruct (Htotal eq_refl ltac:(eexists; reflexivity)) as [[r Hr] _].
  exists r. split; [exact Hr|].
  destruct (Hteam r Hr) as (Hid & _ & _ & s & Hs & Hurl & Hcell).
  rewrite Hid in Hs, Hurl, Hcell. injection Hs as <-. split.
  - apply Hurl. discriminate.
  - intros H0. apply (Hcell eq_refl eq_refl) in H0. discriminate H0.
Defined.

Example url_examples :
  (Team.experimentUrl <$> Team.rowOf (JObj [("id", JStr "exp_456")]))
  = Some "https://eppo.cloud/experiments/exp_456"
  /\ (Ready.experimentUrl <$> Ready.rowOf (JObj [("name", JStr "n")])) = Some ""
  /\ (Ready.experimentUrl <$> Ready.rowOf (JObj [("id", JNum 0); ("experiment_id", JNum 12)]))
     = Some "https://eppo.cloud/experiments/12".
Proof. repeat split; reflexivity. Qed.

(** ** Order, degenerate payloads, and the copies of the owner logic *)

(** C7.  On an array, the output of either filter is a subsequence of the
    input: the kept records in their original order, none added, none
    repeated.  Either filter returns as soon as its callback returns on
    every record. *)
Theorem filters_give_subsequences (items : list JsValue) :
  (forall teamId out,
     outcome (Team.filterByTeam (JArr items) teamId) = Some out ->
     sublist out items)
  /\ (forall out,
        outcome (Ready.filterByTargetStatuses (JArr items)) = Some out ->
        sublist out items)
  /\ (forall teamId,
        Forall (fun e => is_Some (Team.inTeam teamId e)) items <->
        is_Some (outcome (Team.filterByTeam (JArr items) teamId)))
  /\ (Forall (fun e => is_Some (Ready.hasTargetStatus e)) items <->
      is_Some (outcome (Ready.filterByTargetStatuses (JArr items)))).
Proof.
  split; [|split; [|split]].
  - intros teamId out H. cbn in H. now apply filterM_sublist in H.
  - intros out H. cbn in H. now apply filterM_sublist in H.
  - intros teamId. apply filterM_total.
  - apply filterM_total.
Qed.

Lemma filters_give_subsequences_witness :
  sublist [JObj [("status", JStr "wrap_up")]]
          [JObj [("status", JStr "draft")]; JObj [("status", JStr "wrap_up")]].
Proof.
  apply (proj1 (proj2 (filters_give_subsequences
                         [JObj [("status", JStr "draft")];
                          JObj [("status", JStr "wrap_up")]]))).
  reflexivity.
Defined.

(** C8.  On a payload that is not an array, each filter warns and returns
    the empty list without raising; the serializer then only reports that
    nothing was found, so the run writes no file and ends with status 0. *)
Theorem non_array_payload (payload : JsValue) :
  isArray payload = false ->
  (forall teamId,
     Team.filterByTeam payload teamId
     = ([ConsoleWarn (LNotArray (typeof payload))], Some []))
  /\ Ready.filterByTargetStatuses payload
     = ([ConsoleWarn (LNotArray (typeof payload))], Some [])
  /\ (forall w,
        Ready.run w (Fetched payload)
        = ([ConsoleLog LStarting; ConsoleLog LFetching;
            ConsoleLog (LTotalFetched None);
            ConsoleWarn (LNotArray (typeof payload));
            ConsoleLog LNoneFound], 0)
        /\ filesWritten (fst (Ready.run w (Fetched payload))) = [])
  /\ (forall this w,
        Team.run this w (Fetched payload)
        = ([ConsoleLog LStarting; ConsoleLog LFetching;
            ConsoleLog (LTotalFetched None);
            ConsoleWarn (LNotArray (typeof payload));
            ConsoleLog LNoneFound], 0)
        /\ filesWritten (fst (Team.run this w (Fetched payload))) = []).
Proof.
  intros H. destruct payload; try discriminate H; repeat split; reflexivity.
Qed.

Lemma non_array_payload_witness :
  isArray (JObj [("error", JStr "unauthorized")]) = false
  /\ Ready.filterByTargetStatuses (JObj [("error", JStr "unauthorized")])
     = ([ConsoleWarn (LNotArray "object")], Some []).
Proof.
  split; [reflexivity|].
  exact (proj1 (proj2 (non_array_payload
                         (JObj [("error", JStr "unauthorized")]) eq_refl))).
Defined.

Lemma summaryEmail_of_owner (owner : JsValue) :
  (if String.eqb (typeof owner) "object" && negb (sameValueZero owner JNull) then
     getProp owner "email" <||> getProp owner "email_address" <||> Some (JStr "")
   else
     match owner with
     | JStr s => if includes "@" s then Some owner else Some (JStr "")
     | _ => Some (JStr "")
     end)
  = ownerEmail <$> Team.resolveOwner owner.
Proof.
  unfold Team.resolveOwner.
  destruct owner as [| |b|n|t|s|items|ps]; try reflexivity.
  - cbn. destruct (includes "@" s); reflexivity.
  - cbn. destruct (truthy (default JUndefined (lookupProp "name" ps)));
      [|destruct (truthy (default JUndefined (lookupProp "full_name" ps)));
        [|destruct (truthy (default JUndefined (lookupProp "displayName" ps)))]];
      cbn;
      (destruct (truthy (default JUndefined (lookupProp "email" ps)));
       [|destruct (truthy (default JUndefined (lookupProp "email_address" ps)))]);
      reflexivity.
Qed.

(** C9.  The owner logic of the team report and that of the status report
    are the same function of the record; and in each script the email the
    summary computes for a record is the email of the owner its row loop
    resolves (the summary computes no name).  Where one raises, on a [null]
    record, so do the others. *)
Theorem owner_logic_shared (e : JsValue) :
  Team.ownerOf e = Ready.ownerOf e
  /\ Team.summaryEmailOf e = ownerEmail <$> Team.ownerOf e
  /\ Ready.summaryEmailOf e = ownerEmail <$> Ready.ownerOf e
  /\ Team.summaryEmailOf e = Ready.summaryEmailOf e.
Proof.
  assert (H : Team.summaryEmailOf e = ownerEmail <$> Team.ownerOf e).
  { unfold Team.summaryEmailOf, Team.ownerOf.
    change (getProp e "owner" <||> getProp e "created_by"
            <||> getProp e "createdBy" <||> getProp e "author"
            <||> Some (JObj []))
      with (Team.ownerSourceOf e).
    destruct (Team.ownerSourceOf e) as [owner|]; [|reflexivity].
    cbn [mbind option_bind]. apply summaryEmail_of_owner. }
  repeat split; try reflexivity; exact H.
Qed.

(** ** The reports, end to end *)

Example team_report_example :
  let r := Team.run {| Team.apiKey := "key"; Team.baseUrl := "url";
                       Team.teamId := "123" |}
                    sampleWorld (Fetched samplePayload) in
  filesWritten (fst r)
  = [("eppo_experiments_team_123_2024-01-15.csv",
      joinLines
        [Team.header;
         "Checkout Flow,exp_456," ++ str1 dquote ++ "Doe, John" ++ str1 dquote
           ++ ",john@x.com,https://eppo.cloud/experiments/exp_456";
         "Recs,789,jane,jane@x.com,https://eppo.cloud/experiments/789"])]
  /\ In (ConsoleLog (LTotal 2)) (fst r)
  /\ In (ConsoleLog (LUniqueEmails 2)) (fst r)
  /\ snd r = 0.
Proof. vm_compute. tauto. Qed.

Example status_report_example :
  let r := Ready.run sampleWorld (Fetched samplePayload) in
  filesWritten (fst r)
  = [("eppo_ready_wrap_up_experiments_2024-01-15.csv",
      joinLines
        [Ready.header;
         "jane,jane@x.com,Recs,789,READY,https://eppo.cloud/experiments/789"])]
  /\ snd r = 0.
Proof. vm_compute. tauto. Qed.

(** A failed request, or a [null] record in the payload, ends the run with
    status 1 and no file. *)
Example failed_run_examples :
  Ready.run sampleWorld NetworkError
  = ([ConsoleLog LStarting; ConsoleLog LFetching; ConsoleError LNetworkError;
      ConsoleError LRunError; ConsoleError LErrorMessage], 1)
  /\ Ready.run sampleWorld (Fetched (JArr [JNull]))
     = ([ConsoleLog LStarting; ConsoleLog LFetching;
         ConsoleLog (LTotalFetched (Some 1%nat));
         ConsoleError LRunError; ConsoleError LErrorMessage], 1).
Proof. split; reflexivity. Qed.

(** The number 0 as a team identifier is falsy: in one of the first five
    locations it is passed over, in the last it is what the chain yields. *)
Example zero_team_id_examples :
  Team.filterByTeam (JArr [JObj [("team_id", JNum 0)]]) (JStr "0")
  = ([], Some [])
  /\ Team.filterByTeam (JArr [JObj [("metadata", JObj [("teamId", JNum 0)])]])
                       (JStr "0")
     = ([], Some [JObj [("metadata", JObj [("teamId", JNum 0)])]]).
Proof. split; reflexivity. Qed.

(** ** Further properties of the filters *)

Lemma filterM_ext {A} (cb1 cb2 : A -> option bool) (l : list A) :
  (forall x, cb1 x = cb2 x) -> filterM cb1 l = filterM cb2 l.
Proof.
  intros H. induction l as [|x l IH]; [reflexivity|].
  cbn [filterM]. now rewrite H, IH.
Qed.

Lemma filterM_app {A} (cb : A -> option bool) (l1 l2 : list A) :
  filterM cb (l1 ++ l2)%list
  = r1 ← filterM cb l1; r2 ← filterM cb l2; Some (r1 ++ r2)%list.
Proof.
  induction l1 as [|x l1 IH]; cbn [app filterM].
  - cbn [mbind option_bind]. now destruct (filterM cb l2).
  - destruct (cb x) as [b|]; [|reflexivity]. cbn [mbind option_bind].
    rewrite IH. destruct (filterM cb l1) as [r1|]; [|reflexivity].
    cbn [mbind option_bind]. destruct (filterM cb l2) as [r2|]; [|reflexivity].
    cbn [mbind option_bind]. now destruct b.
Qed.

Lemma filterM_kept {A} (cb : A -> option bool) (l out : list A) :
  filterM cb l = Some out -> Forall (fun x => cb x = Some true) out.
Proof.
  intros H. apply filterM_filter in H. subst out.
  apply Forall_forall. intros x Hx. apply list_elem_of_filter in Hx. tauto.
Qed.

Lemma filterM_all_kept {A} (cb : A -> option bool) (l : list A) :
  Forall (fun x => cb x = Some true) l -> filterM cb l = Some l.
Proof.
  induction 1 as [|x l Hx _ IH]; [reflexivity|].
  cbn [filterM]. now rewrite Hx, IH.
Qed.

Lemma filterM_none_kept {A} (cb : A -> option bool) (l out : list A) :
  (forall x, cb x <> Some true) -> filterM cb l = Some out -> out = [].
Proof.
  intros Hnever H. apply filterM_kept in H.
  destruct H as [|x out Hx _]; [reflexivity|]. now apply Hnever in Hx.
Qed.

Lemma parseInt_toInteger (v : JsValue) :
  is_Some (toString v) -> parseInt v = Some (toInteger v).
Proof. intros [s Hs]. unfold parseInt, toInteger. now rewrite Hs. Qed.

(** X1.  The team filter reads its target only through [parseInt]: two
    targets that stringify and coerce to the same integer (or both to
    [NaN]) select the same records from any payload, whatever else their
    text holds. *)
Theorem team_filter_target_by_integer (t1 t2 experiments : JsValue) :
  is_Some (toString t1) -> is_Some (toString t2) ->
  toInteger t1 = toInteger t2 ->
  Team.filterByTeam experiments t1 = Team.filterByTeam experiments t2.
Proof.
  intros H1 H2 Heq. unfold Team.filterByTeam.
  destruct experiments; try reflexivity. cbn [isArray negb].
  f_equal. apply filterM_ext. intros e. unfold Team.inTeam.
  now rewrite (parseInt_toInteger t1), (parseInt_toInteger t2), Heq.
Qed.

Lemma team_filter_target_by_integer_witness :
  Team.filterByTeam samplePayload (JStr "  123-beta")
  = Team.filterByTeam samplePayload (JNum 123).
Proof.
  apply team_filter_target_by_integer.
  - eexists; reflexivity.
  - eexists; reflexivity.
  - reflexivity.
Defined.

(** X2.  A target that does not start with an integer selects nothing:
    whenever the team filter returns, it returns the empty list, even for
    records that carry the very same text as their team identifier. *)
Theorem team_filter_nan_target (teamId experiments : JsValue) (out : list JsValue) :
  toInteger teamId = None ->
  outcome (Team.filterByTeam experiments teamId) = Some out ->
  out = [].
Proof.
  intros Hnan. unfold Team.filterByTeam.
  destruct experiments; cbn; try (now intros [= <-]).
  apply filterM_none_kept. intros e He. apply inTeam_true_iff in He.
  destruct He as (n & _ & Hn). congruence.
Qed.

Lemma team_filter_nan_target_witness :
  outcome (Team.filterByTeam (JArr [JObj [("team_id", JStr "growth")]])
                             (JStr "growth"))
  = Some [].
Proof.
  destruct (outcome (Team.filterByTeam (JArr [JObj [("team_id", JStr "growth")]])
                                       (JStr "growth"))) as [out|] eqn:H.
  - f_equal. exact (team_filter_nan_target (JStr "growth") _ out eq_refl H).
  - discriminate H.
Defined.

(** X3.  Both filters are idempotent and work record by record: filtering
    an output again returns it unchanged, without a warning, and the output
    for a concatenation of two arrays is the concatenation of the
    outputs. *)
Theorem filters_idempotent_and_local :
  (forall teamId items out,
     outcome (Team.filterByTeam (JArr items) teamId) = Some out ->
     Team.filterByTeam (JArr out) teamId = ([], Some out))
  /\ (forall items out,
        outcome (Ready.filterByTargetStatuses (JArr items)) = Some out ->
        Ready.filterByTargetStatuses (JArr out) = ([], Some out))
  /\ (forall teamId l1 l2 o1 o2,
        outcome (Team.filterByTeam (JArr l1) teamId) = Some o1 ->
        outcome (Team.filterByTeam (JArr l2) teamId) = Some o2 ->
        Team.filterByTeam (JArr (l1 ++ l2)%list) teamId
        = ([], Some (o1 ++ o2)%list))
  /\ (forall l1 l2 o1 o2,
        outcome (Ready.filterByTargetStatuses (JArr l1)) = Some o1 ->
        outcome (Ready.filterByTargetStatuses (JArr l2)) = Some o2 ->
        Ready.filterByTargetStatuses (JArr (l1 ++ l2)%list)
        = ([], Some (o1 ++ o2)%list)).
Proof.
  repeat split.
  - intros teamId items out H. cbn in H |- *. apply filterM_kept in H.
    now rewrite (filterM_all_kept _ _ H).
  - intros items out H. cbn in H |- *. apply filterM_kept in H.
    now rewrite (filterM_all_kept _ _ H).
  - intros teamId l1 l2 o1 o2 H1 H2. cbn in H1, H2 |- *.
    now rewrite filterM_app, H1, H2.
  - intros l1 l2 o1 o2 H1 H2. cbn in H1, H2 |- *.
    now rewrite filterM_app, H1, H2.
Qed.

Lemma filters_idempotent_and_local_witness :
  Ready.filterByTargetStatuses
    (JArr [JObj [("title", JStr "Recs"); ("experiment_id", JNum 789);
                 ("teamId", JStr "123"); ("created_by", JStr "jane@x.com");
                 ("status", JStr "READY")]])
  = ([], Some [JObj [("title", JStr "Recs"); ("experiment_id", JNum 789);
                     ("teamId", JStr "123"); ("created_by", JStr "jane@x.com");
                     ("status", JStr "READY")]]).
Proof.
  apply (proj1 (proj2 filters_idempotent_and_local)
               (match samplePayload with JArr items => items | _ => [] end)).
  reflexivity.
Defined.

(** ** [parseInt] on numbers *)

Lemma digitValue_pretty_char (d : N) :
  (d < 10)%N -> digitValue 10 (pretty_N_char d) = Some (Z.of_N d).
Proof.
  intros H.
  assert (d = 0 \/ d = 1 \/ d = 2 \/ d = 3 \/ d = 4 \/ d = 5 \/ d = 6
          \/ d = 7 \/ d = 8 \/ d = 9)%N as Hd by lia.
  repeat (destruct Hd as [->|Hd]; [reflexivity|]). subst d. reflexivity.
Qed.

Lemma parseDigits_pretty_go (x : N) (s : string) :
  parseDigits 10 None (pretty_N_go x s)
  = parseDigits 10 (if decide (x = 0)%N then None else Some (Z.of_N x)) s.
Proof.
  revert s. induction x as [x IH] using (well_founded_induction N.lt_wf_0).
  intros s. destruct (decide (x = 0)%N) as [->|Hx]; [reflexivity|].
  rewrite pretty_N_go_step by lia.
  rewrite IH by (apply N.div_lt; lia).
  cbn [parseDigits]. rewrite digitValue_pretty_char by (apply N.mod_lt; lia).
  f_equal. f_equal.
  destruct (decide (x `div` 10 = 0)%N) as [H0|H0]; cbn [default from_option id].
  - pose proof (N.div_mod x 10 ltac:(lia)). lia.
  - pose proof (N.div_mod x 10 ltac:(lia)). lia.
Qed.

Lemma pretty_go_first (x : N) (s : string) :
  (0 < x)%N ->
  exists d rest,
    (1 <= d < 10)%N /\ pretty_N_go x s = String (pretty_N_char d) rest.
Proof.
  revert s. induction x as [x IH] using (well_founded_induction N.lt_wf_0).
  intros s Hx. rewrite pretty_N_go_step by assumption.
  destruct (decide (x `div` 10 = 0)%N) as [H0|H0].
  - rewrite H0, pretty_N_go_0. exists (x `mod` 10)%N, s. split; [|reflexivity].
    pose proof (N.div_mod x 10 ltac:(lia)). pose proof (N.mod_lt x 10 ltac:(lia)). lia.
  - apply IH; [apply N.div_lt; lia | now apply N.neq_0_lt_0].
Qed.

Lemma parseIntString_digit_start (d : N) (rest : string) :
  (1 <= d < 10)%N ->
  parseIntString (String (pretty_N_char d) rest)
  = n ← parseDigits 10 None (String (pretty_N_char d) rest);
    Some (toDouble (1 * n)).
Proof.
  intros H.
  assert (d = 1 \/ d = 2 \/ d = 3 \/ d = 4 \/ d = 5 \/ d = 6
          \/ d = 7 \/ d = 8 \/ d = 9)%N as Hd by lia.
  repeat (destruct Hd as [->|Hd]; [reflexivity|]). subst d. reflexivity.
Qed.

Lemma parseIntString_minus_digit_start (d : N) (rest : string) :
  (1 <= d < 10)%N ->
  parseIntString (String "-" (String (pretty_N_char d) rest))
  = n ← parseDigits 10 None (String (pretty_N_char d) rest);
    Some (toDouble (-1 * n)).
Proof.
  intros H.
  assert (d = 1 \/ d = 2 \/ d = 3 \/ d = 4 \/ d = 5 \/ d = 6
          \/ d = 7 \/ d = 8 \/ d = 9)%N as Hd by lia.
  repeat (destruct Hd as [->|Hd]; [reflexivity|]). subst d. reflexivity.
Qed.

Lemma toDouble_safe (n : Z) :
  Z.abs n <= maxSafeInteger -> toDouble n = n.
Proof.
  intros H. unfold toDouble, maxSafeInteger in *.
  change (2 ^ 53) with 9007199254740992.
  destruct (Z.ltb_spec (Z.abs n) 9007199254740992); [reflexivity | lia].
Qed.

Lemma parseIntString_pretty_double (n : Z) :
  parseIntString (pretty n) = Some (toDouble n).
Proof.
  destruct n as [|p|p]; [reflexivity| |].
  - change (pretty (Z.pos p)) with (pretty_N_go (N.pos p) "").
    destruct (pretty_go_first (N.pos p) "" ltac:(lia)) as (d & rest & Hd & Hgo).
    pose proof (parseDigits_pretty_go (N.pos p) "") as Hparse.
    rewrite Hgo in Hparse |- *. rewrite parseIntString_digit_start by assumption.
    rewrite Hparse. reflexivity.
  - change (pretty (Z.neg p)) with (String "-" (pretty_N_go (N.pos p) "")).
    destruct (pretty_go_first (N.pos p) "" ltac:(lia)) as (d & rest & Hd & Hgo).
    pose proof (parseDigits_pretty_go (N.pos p) "") as Hparse.
    rewrite Hgo in Hparse |- *. rewrite parseIntString_minus_digit_start by assumption.
    rewrite Hparse. reflexivity.
Qed.

Lemma parseIntString_pretty (n : Z) :
  Z.abs n <= maxSafeInteger -> parseIntString (pretty n) = Some n.
Proof.
  intros H. now rewrite parseIntString_pretty_double, toDouble_safe.
Qed.

(** X4.  [parseInt] gives a safe integer back: an integer of magnitude at
    most 2^53 - 1 and its decimal text both coerce to that integer.  So a
    record whose [team_id] is such a number other than 0 is kept by the
    team filter exactly when the target, a value of a payload, coerces to
    that number. *)
Theorem parseInt_number (n : Z) :
  Z.abs n <= maxSafeInteger ->
  parseInt (JNum n) = Some (Some n)
  /\ parseInt (JStr (pretty n)) = Some (Some n)
  /\ (forall ps teamId,
        n <> 0 ->
        lookupProp "team_id" ps = Some (JNum n) ->
        safe teamId = true ->
        is_Some (toString teamId) ->
        Team.inTeam teamId (JObj ps)
        = Some (bool_decide (toInteger teamId = Some n))).
Proof.
  intros Hsafe.
  assert (H : parseInt (JNum n) = Some (Some n)).
  { unfold parseInt. cbn [toString mbind option_bind].
    now rewrite parseIntString_pretty. }
  split; [exact H|]. split; [exact H|].
  intros ps teamId Hn Hps _ Ht.
  rewrite inTeam_eq by reflexivity.
  assert (Hres : resolvedTeamId (JObj ps) = JNum n).
  { unfold resolvedTeamId, teamLocations, firstTruthy. cbn [field find].
    rewrite Hps. cbn [default from_option id truthy].
    destruct (Z.eqb_spec n 0); [contradiction | reflexivity]. }
  rewrite Hres, H, (parseInt_toInteger teamId Ht). cbn [mbind option_bind].
  f_equal. destruct (toInteger teamId) as [m|]; cbn [numStrictEq].
  - destruct (Z.eqb_spec n m) as [->|Hne].
    + now rewrite bool_decide_eq_true_2.
    + rewrite bool_decide_eq_false_2; [reflexivity | congruence].
  - now rewrite bool_decide_eq_false_2.
Qed.

Lemma parseInt_number_witness :
  Team.inTeam (JStr "123 (growth)")
              (JObj [("name", JStr "Checkout Flow"); ("team_id", JNum 123)])
  = Some true.
Proof.
  exact (proj2 (proj2 (parseInt_number 123 ltac:(unfold maxSafeInteger; lia)))
               [("name", JStr "Checkout Flow"); ("team_id", JNum 123)]
               (JStr "123 (growth)")
               ltac:(discriminate) eq_refl eq_refl ltac:(eexists; reflexivity)).
Defined.

(** ** The summary's unique owner emails *)

Lemma mapE_Forall2 {A B} (cb : A -> option B) (l : list A) (r : list B) :
  mapE cb l = Some r <-> Forall2 (fun x y => cb x = Some y) l r.
Proof.
  revert r. induction l as [|x l IH]; intros r; cbn [mapE].
  - split; [intros [= <-]; constructor | intros H; now inversion H].
  - split.
    + destruct (cb x) as [y|] eqn:Hy; [|discriminate]. cbn [mbind option_bind].
      destruct (mapE cb l) as [r'|]; [|discriminate]. cbn [mbind option_bind].
      intros [= <-]. constructor; [assumption | now apply IH].
    + intros H. inversion H as [|? y ? r' Hy Hrest]; subst.
      rewrite Hy. cbn [mbind option_bind]. apply IH in Hrest. now rewrite Hrest.
Qed.

Lemma mapE_total {A B} (cb : A -> option B) (l : list A) :
  Forall (fun x => is_Some (cb x)) l -> is_Some (mapE cb l).
Proof.
  induction 1 as [|x l [y Hy] _ [r Hr]]; cbn [mapE]; [eexists; reflexivity|].
  rewrite Hy, Hr. eexists; reflexivity.
Qed.

Lemma stringsOf_elem (s : string) (l : list JsValue) :
  s ∈ stringsOf l <-> JStr s ∈ l.
Proof.
  unfold stringsOf. rewrite !list_elem_of_In, in_flat_map. split.
  - intros (v & Hv & Hs). destruct v; cbn in Hs; try contradiction.
    destruct Hs as [->|[]]. exact Hv.
  - intros H. exists (JStr s). split; [exact H | now left].
Qed.

Lemma sameValueZero_string (s : string) (v : JsValue) :
  sameValueZero v (JStr s) = true <-> v = JStr s.
Proof.
  destruct v; cbn; try (split; [discriminate | intros [=]]).
  rewrite String.eqb_eq. split; [now intros -> | now intros [= ->]].
Qed.

Lemma sameValueZero_string_l (s : string) (v : JsValue) :
  sameValueZero (JStr s) v = true <-> v = JStr s.
Proof.
  destruct v; cbn; try (split; [discriminate | intros [=]]).
  rewrite String.eqb_eq. split; [now intros -> | now intros [= ->]].
Qed.

Lemma setOf_elem (seen l : list JsValue) (x : JsValue) :
  x ∈ setOf seen l -> x ∈ l /\ existsb (sameValueZero x) seen = false.
Proof.
  revert seen. induction l as [|y l IH]; intros seen; cbn [setOf].
  - intros H. now apply elem_of_nil in H.
  - destruct (existsb (sameValueZero y) seen) eqn:Hy.
    + intros H. apply IH in H. destruct H. split; [now right | assumption].
    + intros H. apply elem_of_cons in H. destruct H as [->|H].
      * split; [now left | assumption].
      * apply IH in H. destruct H as [Hin Hseen]. split; [now right|].
        cbn [existsb] in Hseen. now apply orb_false_iff in Hseen.
Qed.

Lemma setOf_length (seen l : list JsValue) :
  (length (setOf seen l) <= length l)%nat.
Proof.
  revert seen. induction l as [|y l IH]; intros seen; cbn [setOf length]; [lia|].
  destruct (existsb (sameValueZero y) seen).
  - specialize (IH seen). lia.
  - cbn [length]. specialize (IH (y :: seen)). lia.
Qed.

Lemma setOf_strings_complete (seen l : list JsValue) (s : string) :
  JStr s ∈ l -> JStr s ∈ setOf seen l \/ JStr s ∈ seen.
Proof.
  revert seen. induction l as [|y l IH]; intros seen H; cbn [setOf].
  - now apply elem_of_nil in H.
  - apply elem_of_cons in H.
    destruct (existsb (sameValueZero y) seen) eqn:Hy.
    + destruct H as [<-|H]; [|now apply IH].
      right. apply existsb_exists in Hy. destruct Hy as (v & Hv & Hsame).
      apply sameValueZero_string_l in Hsame. subst v. now apply list_elem_of_In.
    + destruct H as [<-|H]; [left; now left|].
      destruct (IH (y :: seen) H) as [Hin|Hin]; [left; now right|].
      apply elem_of_cons in Hin. destruct Hin as [<-|Hin]; [left; now left | now right].
Qed.

Lemma setOf_strings_NoDup (seen l : list JsValue) :
  NoDup (stringsOf (setOf seen l)).
Proof.
  revert seen. induction l as [|y l IH]; intros seen; cbn [setOf].
  - constructor.
  - destruct (existsb (sameValueZero y) seen); [apply IH|].
    destruct y; try apply IH.
    change (NoDup (s :: stringsOf (setOf (JStr s :: seen) l))).
    apply NoDup_cons. split; [|apply IH].
    rewrite stringsOf_elem. intros Hin. apply setOf_elem in Hin.
    destruct Hin as [_ Hseen]. cbn [existsb sameValueZero] in Hseen.
    rewrite String.eqb_refl in Hseen. discriminate.
Qed.

(** X5.  The emails the summary counts: at most one per record; never the
    empty string; each non-empty string email of a record is there, exactly
    once (strings are compared exactly, case included); and when every
    email found is a string, the count is the number of distinct non-empty
    ones. *)
Theorem unique_owner_emails (experiments u : list JsValue) :
  Team.uniqueOwnerEmails experiments = Some u ->
  Ready.uniqueOwnerEmails experiments = Some u
  /\ (length u <= length experiments)%nat
  /\ NoDup (stringsOf u)
  /\ (forall s, s ∈ stringsOf u <->
                s <> "" /\ exists e, e ∈ experiments
                                     /\ Team.summaryEmailOf e = Some (JStr s))
  /\ ((forall e v, e ∈ experiments -> Team.summaryEmailOf e = Some v ->
                   exists s, v = JStr s) ->
      u = map JStr (stringsOf u)).
Proof.
  intros H. split; [exact H|]. unfold Team.uniqueOwnerEmails in H.
  destruct (mapE Team.summaryEmailOf experiments) as [emails|] eqn:Hemails;
    [|discriminate]. cbn [mbind option_bind] in H. injection H as <-.
  apply mapE_Forall2 in Hemails.
  assert (Hfrom : forall v, v ∈ emails <->
                    exists e, e ∈ experiments /\ Team.summaryEmailOf e = Some v).
  { intros v. split.
    - intros Hv. apply list_elem_of_lookup in Hv. destruct Hv as [i Hi].
      destruct (Forall2_lookup_r _ _ _ _ _ Hemails Hi) as (e & He & Hev).
      exists e. split; [|exact Hev]. apply list_elem_of_lookup. eauto.
    - intros (e & He & Hev). apply list_elem_of_lookup in He. destruct He as [i Hi].
      destruct (Forall2_lookup_l _ _ _ _ _ Hemails Hi) as (v' & Hv' & Hev').
      rewrite Hev in Hev'. injection Hev' as <-. apply list_elem_of_lookup. eauto. }
  split.
  { etransitivity; [apply setOf_length|].
    rewrite (Forall2_length _ _ _ Hemails). apply length_filter. }
  split; [apply setOf_strings_NoDup|]. split.
  { intros s. rewrite stringsOf_elem. split.
    - intros Hin. apply setOf_elem in Hin. destruct Hin as [Hin _].
      apply list_elem_of_filter in Hin. destruct Hin as [Hne Hin].
      split; [|now apply Hfrom]. intros ->. discriminate Hne.
    - intros (Hne & Hex). apply Hfrom in Hex.
      assert (Hkeep : JStr s ∈ filter (fun email => notEmptyString email = true) emails).
      { apply list_elem_of_filter. split; [|exact Hex]. cbn.
        destruct (String.eqb_spec s ""); [contradiction | reflexivity]. }
      destruct (setOf_strings_complete [] _ s Hkeep) as [Hin|Hin]; [exact Hin|].
      now apply elem_of_nil in Hin. }
  intros Hall.
  assert (Hstr : Forall (fun v => exists s, v = JStr s)
                   (setOf [] (filter (fun email => notEmptyString email = true) emails))).
  { apply Forall_forall. intros v Hv. apply setOf_elem in Hv. destruct Hv as [Hv _].
    apply list_elem_of_filter in Hv. destruct Hv as [_ Hv].
    apply Hfrom in Hv. destruct Hv as (e & He & Hev). eauto. }
  induction Hstr as [|v l [s ->] _ IH]; [reflexivity|].
  change (stringsOf (JStr s :: l)) with (s :: stringsOf l).
  cbn [map]. now rewrite <- IH.
Qed.

Lemma unique_owner_emails_witness :
  exists u,
    Team.uniqueOwnerEmails
      [JObj [("owner", JStr "ann@x.com")];
       JObj [("author", JObj [("email", JStr "ann@x.com")])];
       JObj [("owner", JStr "Ann@x.com")];
       JObj [("owner", JStr "nobody")]]
    = Some u
    /\ NoDup (stringsOf u) /\ length u = 2%nat.
Proof.
  exists [JStr "ann@x.com"; JStr "Ann@x.com"].
  split; [reflexivity|]. split; [|reflexivity].
  exact (proj1 (proj2 (proj2
           (unique_owner_emails
              [JObj [("owner", JStr "ann@x.com")];
               JObj [("author", JObj [("email", JStr "ann@x.com")])];
               JObj [("owner", JStr "Ann@x.com")];
               JObj [("owner", JStr "nobody")]]
              [JStr "ann@x.com"; JStr "Ann@x.com"] eq_refl)))).
Defined.

(** ** Reading a row back *)

(** A string as [escapeCsv] renders it. *)
Definition escaped (s : string) : string :=
  if decide (special s) then quoted s else s.

Lemma append_empty_r (s : string) : s ++ "" = s.
Proof.
  induction s as [|a s IH]; [reflexivity|].
  change (String a (s ++ "") = String a s). now rewrite IH.
Qed.

Lemma splitRow_nonempty (q : bool) (s : string) : splitRow q s <> [].
Proof.
  destruct s as [|a s]; cbn [splitRow]; [discriminate|].
  destruct (Ascii.eqb a comma && negb q); [discriminate|].
  destruct (splitRow _ s); discriminate.
Qed.

(** A stretch that [scan] crosses stays inside one field. *)
Lemma splitRow_scan (f rest : string) (q q' : bool) :
  scan q f = Some q' ->
  splitRow q (f ++ rest)
  = match splitRow q' rest with
    | [] => [f]
    | g :: gs => (f ++ g) :: gs
    end.
Proof.
  revert q. induction f as [|a f IH]; intros q; cbn [scan].
  - intros [= <-]. change ("" ++ rest) with rest.
    destruct (splitRow q rest) eqn:E; [|reflexivity].
    now apply splitRow_nonempty in E.
  - change (String a f ++ rest) with (String a (f ++ rest)).
    cbn [splitRow]. destruct (Ascii.eqb a comma && negb q); [discriminate|].
    intros H. rewrite (IH _ H). now destruct (splitRow q' rest).
Qed.

Lemma hasChar_cons (c a : ascii) (s : string) :
  hasChar c (String a s) <-> a = c \/ hasChar c s.
Proof. reflexivity. Qed.

Lemma scan_unquoted (s : string) :
  ~ hasChar comma s -> ~ hasChar dquote s -> scan false s = Some false.
Proof.
  induction s as [|a s IH]; [reflexivity|].
  rewrite !hasChar_cons. intros Hc Hq. cbn [scan].
  destruct (Ascii.eqb_spec a comma) as [->|_]; [tauto|].
  destruct (Ascii.eqb_spec a dquote) as [->|_]; [tauto|].
  cbn [andb]. apply IH; tauto.
Qed.

Lemma doubled_cons (a : ascii) (s : string) :
  doubled (String a s)
  = if Ascii.eqb a dquote then String a (String a (doubled s))
    else String a (doubled s).
Proof. unfold doubled. cbn. now destruct (Ascii.eqb a dquote). Qed.

Lemma scan_doubled (s t : string) :
  scan true (doubled s ++ t) = scan true t.
Proof.
  induction s as [|a s IH]; [reflexivity|].
  rewrite doubled_cons. destruct (Ascii.eqb_spec a dquote) as [->|Hne].
  - change (scan true (String dquote (String dquote (doubled s ++ t)))
            = scan true t).
    cbn. exact IH.
  - change (scan true (String a (doubled s ++ t)) = scan true t).
    cbn [scan negb]. rewrite andb_false_r.
    apply Ascii.eqb_neq in Hne. rewrite Hne. exact IH.
Qed.

Lemma scan_escaped (s : string) : scan false (escaped s) = Some false.
Proof.
  unfold escaped. destruct (decide (special s)) as [H|H].
  - unfold quoted.
    change (scan false (String dquote (doubled s ++ str1 dquote)) = Some false).
    cbn [scan]. cbn. now rewrite scan_doubled.
  - apply scan_unquoted; intros Hc; apply H; unfold special; tauto.
Qed.

Lemma unescape_escaped (s : string) : unescapeCsv (escaped s) = s.
Proof.
  unfold unescapeCsv, escaped. destruct (decide (special s)) as [H|H].
  - rewrite unwrap_quoted. apply halveQuotes_doubled.
  - rewrite unwrap_plain; [reflexivity|]. intros Hq. apply H. right; now left.
Qed.

Lemma splitRow_cells (c : string) (cells : list string) :
  Forall (fun f => scan false f = Some false) (c :: cells) ->
  splitRow false (String.concat "," (c :: cells)) = c :: cells.
Proof.
  revert c. induction cells as [|c' cells IH]; intros c Hall.
  - apply Forall_cons in Hall. destruct Hall as [Hc _].
    cbn [String.concat]. rewrite <- (append_empty_r c) at 1.
    rewrite (splitRow_scan _ _ _ _ Hc). cbn. now rewrite append_empty_r.
  - apply Forall_cons in Hall. destruct Hall as [Hc Hrest].
    change (String.concat "," (c :: c' :: cells))
      with (c ++ String comma (String.concat "," (c' :: cells))).
    rewrite (splitRow_scan _ _ _ _ Hc). cbn [splitRow].
    rewrite Ascii.eqb_refl. cbn [andb negb]. rewrite (IH c' Hrest).
    now rewrite append_empty_r.
Qed.

Lemma readRow_escaped (f : string) (fs : list string) :
  readRow (String.concat "," (map escaped (f :: fs))) = f :: fs.
Proof.
  unfold readRow. cbn [map]. rewrite splitRow_cells.
  - change (map unescapeCsv (map escaped (f :: fs)) = f :: fs).
    rewrite map_map. rewrite <- (map_id (f :: fs)) at 2.
    apply map_ext. intros s. apply unescape_escaped.
  - change (Forall (fun c => scan false c = Some false) (map escaped (f :: fs))).
    apply Forall_forall. intros c Hc. apply list_elem_of_In, in_map_iff in Hc.
    destruct Hc as (s & <- & _). apply scan_escaped.
Qed.

Lemma team_escapeCsv_escaped (v : JsValue) :
  Team.escapeCsv v = escaped <$> toString v.
Proof. rewrite team_escapeCsv_eq. now destruct (toString v). Qed.

(** X6.  A data row reads back: splitting the row at the commas outside
    double quotes and unescaping each field gives the stringified values
    the row was made of, so a row of the team report always has five
    fields and one of the status report six, whatever commas, quotes or
    newlines the values hold. *)
Theorem csv_row_reads_back :
  (forall r row,
     Team.csvRowOf r = Some row ->
     mapE toString [Team.experimentName r; Team.experimentId r;
                    ownerName (Team.rowOwner r); ownerEmail (Team.rowOwner r);
                    JStr (Team.experimentUrl r)]
     = Some (readRow row))
  /\ (forall r row,
        Ready.csvRowOf r = Some row ->
        mapE toString [ownerName (Ready.rowOwner r); ownerEmail (Ready.rowOwner r);
                       Ready.experimentName r; Ready.experimentId r;
                       Ready.experimentStatus r; JStr (Ready.experimentUrl r)]
        = Some (readRow row))
  /\ length (readRow Team.header) = 5%nat
  /\ length (readRow Ready.header) = 6%nat.
Proof.
  split; [|split; [|split; reflexivity]].
  - intros r row. unfold Team.csvRowOf. rewrite !team_escapeCsv_escaped.
    cbn [mapE toString].
    destruct (toString (Team.experimentName r)) as [f1|]; [|discriminate].
    destruct (toString (Team.experimentId r)) as [f2|]; [|discriminate].
    destruct (toString (ownerName (Team.rowOwner r))) as [f3|]; [|discriminate].
    destruct (toString (ownerEmail (Team.rowOwner r))) as [f4|]; [|discriminate].
    cbn [fmap option_fmap option_map mbind option_bind]. intros [= <-].
    f_equal. symmetry.
    exact (readRow_escaped f1 [f2; f3; f4; Team.experimentUrl r]).
  - intros r row. unfold Ready.csvRowOf.
    change Ready.escapeCsv with Team.escapeCsv. rewrite !team_escapeCsv_escaped.
    cbn [mapE toString].
    destruct (toString (ownerName (Ready.rowOwner r))) as [f1|]; [|discriminate].
    destruct (toString (ownerEmail (Ready.rowOwner r))) as [f2|]; [|discriminate].
    destruct (toString (Ready.experimentName r)) as [f3|]; [|discriminate].
    destruct (toString (Ready.experimentId r)) as [f4|]; [|discriminate].
    destruct (toString (Ready.experimentStatus r)) as [f5|]; [|discriminate].
    cbn [fmap option_fmap option_map mbind option_bind]. intros [= <-].
    f_equal. symmetry.
    exact (readRow_escaped f1 [f2; f3; f4; f5; Ready.experimentUrl r]).
Qed.

Lemma csv_row_reads_back_witness :
  exists row,
    Team.csvRowOf
      {| Team.experimentName := JStr ("Say " ++ str1 dquote ++ "hi" ++ str1 dquote);
         Team.experimentId := JNum 7;
         Team.rowOwner := {| ownerName := JStr "Doe, John"; ownerEmail := JStr "" |};
         Team.experimentUrl := "https://eppo.cloud/experiments/7" |}
    = Some row
    /\ readRow row
       = ["Say " ++ str1 dquote ++ "hi" ++ str1 dquote; "7"; "Doe, John"; "";
          "https://eppo.cloud/experiments/7"].
Proof.
  destruct (Team.csvRowOf
              {| Team.experimentName := JStr ("Say " ++ str1 dquote ++ "hi" ++ str1 dquote);
                 Team.experimentId := JNum 7;
                 Team.rowOwner := {| ownerName := JStr "Doe, John"; ownerEmail := JStr "" |};
                 Team.experimentUrl := "https://eppo.cloud/experiments/7" |})
    as [row|] eqn:Hrow; [|vm_compute in Hrow; discriminate Hrow].
  exists row. split; [reflexivity|].
  pose proof (proj1 csv_row_reads_back _ row Hrow) as Hback.
  cbn in Hback. now injection Hback as <-.
Defined.

(** ** The rows of the two reports *)

Lemma ready_rowOf_status (e : JsValue) (r : Ready.Row) :
  Ready.rowOf e = Some r ->
  Ready.experimentStatus r = default (JStr "") (firstTruthy (statusLocations e)).
Proof.
  intros H. destruct (ready_rowOf_inv e r H) as (He & _). revert H.
  unfold Ready.rowOf.
  destruct (getProp e "name" <||> _) as [name|]; [|discriminate].
  cbn [mbind option_bind]. rewrite id_chain_eq by assumption.
  cbn [mbind option_bind]. rewrite rowStatus_chain_eq by assumption.
  cbn [mbind option_bind].
  destruct (Ready.ownerOf e) as [o|]; [|discriminate]. cbn [mbind option_bind].
  destruct (if truthy (resolvedId e) then _ else _) as [url|]; [|discriminate].
  cbn [mbind option_bind]. now intros [= <-].
Qed.

Lemma ready_rowOf_of_team (e : JsValue) :
  Ready.rowOf e
  = r ← Team.rowOf e;
    Some {| Ready.experimentName := Team.experimentName r;
            Ready.experimentId := Team.experimentId r;
            Ready.experimentStatus :=
              default (JStr "") (firstTruthy (statusLocations e));
            Ready.rowOwner := Team.rowOwner r;
            Ready.experimentUrl := Team.experimentUrl r |}.
Proof.
  destruct (nullish e) eqn:He.
  { unfold Ready.rowOf, Team.rowOf.
    now rewrite (getProp_nullish e "name") by assumption. }
  unfold Ready.rowOf, Team.rowOf.
  destruct (getProp e "name" <||> _) as [name|]; [|reflexivity].
  cbn [mbind option_bind]. rewrite id_chain_eq by assumption.
  cbn [mbind option_bind]. rewrite rowStatus_chain_eq by assumption.
  cbn [mbind option_bind].
  change (Ready.ownerOf e) with (Team.ownerOf e).
  destruct (Team.ownerOf e) as [o|]; [|reflexivity]. cbn [mbind option_bind].
  destruct (if truthy (resolvedId e) then _ else _) as [url|]; reflexivity.
Qed.

(** X7.  The two reports normalise a record alike: the status report has a
    row for a record exactly when the team report has one, and then the two
    rows hold the same name, id, owner and url; the status report only adds
    the status, which is the first truthy of the five status locations, or
    the empty string. *)
Theorem reports_share_rows (e : JsValue) :
  (is_Some (Team.rowOf e) <-> is_Some (Ready.rowOf e))
  /\ (forall rt rr,
        Team.rowOf e = Some rt -> Ready.rowOf e = Some rr ->
        Ready.experimentName rr = Team.experimentName rt
        /\ Ready.experimentId rr = Team.experimentId rt
        /\ Ready.rowOwner rr = Team.rowOwner rt
        /\ Ready.experimentUrl rr = Team.experimentUrl rt
        /\ Ready.experimentStatus rr
           = default (JStr "") (firstTruthy (statusLocations e))).
Proof.
  rewrite ready_rowOf_of_team. split.
  - destruct (Team.rowOf e); cbn [mbind option_bind]; split; intros [? H];
      try discriminate H; eexists; reflexivity.
  - intros rt rr ->. cbn [mbind option_bind]. intros [= <-]. repeat split.
Qed.

Lemma reports_share_rows_witness :
  exists rt rr,
    Team.rowOf (JObj [("title", JStr "Recs"); ("state", JStr "Ready")]) = Some rt
    /\ Ready.rowOf (JObj [("title", JStr "Recs"); ("state", JStr "Ready")]) = Some rr
    /\ Ready.experimentName rr = Team.experimentName rt
    /\ Ready.experimentStatus rr = JStr "Ready".
Proof.
  eexists. eexists. split; [reflexivity|]. split; [reflexivity|].
  destruct (proj2 (reports_share_rows
                     (JObj [("title", JStr "Recs"); ("state", JStr "Ready")]))
                  _ _ eq_refl eq_refl) as (Hname & _ & _ & _ & Hstatus).
  split; [exact Hname | exact Hstatus].
Defined.

(** X8.  Every row of the status report shows a status that, lowercased,
    is [ready] or [wrap_up]: the status the serializer prints for a record
    the filter kept is the one the filter tested, and its cell is that
    text as it is, never quoted. *)
Theorem status_report_rows_have_target_status
    (items out : list JsValue) (e : JsValue) (r : Ready.Row) :
  outcome (Ready.filterByTargetStatuses (JArr items)) = Some out ->
  e ∈ out ->
  Ready.rowOf e = Some r ->
  exists s,
    toString (Ready.experimentStatus r) = Some s
    /\ Ready.escapeCsv (Ready.experimentStatus r) = Some s
    /\ (toLowerCase s = "ready" \/ toLowerCase s = "wrap_up").
Proof.
  intros Hout He Hr. cbn in Hout. apply filterM_kept in Hout.
  rewrite Forall_forall in Hout. specialize (Hout e He).
  apply hasTargetStatus_true_iff in Hout.
  destruct Hout as (v & s & Hv & Hs & Htarget).
  rewrite (ready_rowOf_status e r Hr), Hv. cbn [default from_option id].
  exists s. split; [exact Hs|]. split; [|exact Htarget].
  rewrite ready_escapeCsv_eq, Hs. cbn [mbind option_bind]. f_equal.
  destruct (decide (special s)) as [Hsp|]; [exfalso | reflexivity].
  assert (Hlow : forall c, hasChar c s -> hasChar (lowerAscii c) (toLowerCase s)).
  { clear. intros c. unfold hasChar. induction s as [|a s IH]; cbn; [tauto|].
    intros [->|H]; [now left | right; now apply IH]. }
  unfold special in Hsp.
  destruct Hsp as [Hc|[Hc|Hc]]; apply Hlow in Hc;
    destruct Htarget as [Ht|Ht]; rewrite Ht in Hc; unfold hasChar in Hc; cbn in Hc;
    repeat (destruct Hc as [Hc|Hc]; [discriminate Hc|]); exact Hc.
Qed.

Lemma status_report_rows_have_target_status_witness :
  exists s r,
    Ready.rowOf (JObj [("name", JStr "Recs"); ("status", JStr "WRAP_UP")]) = Some r
    /\ toString (Ready.experimentStatus r) = Some s
    /\ (toLowerCase s = "ready" \/ toLowerCase s = "wrap_up").
Proof.
  destruct (Ready.rowOf (JObj [("name", JStr "Recs"); ("status", JStr "WRAP_UP")]))
    as [r|] eqn:Hr; [|vm_compute in Hr; discriminate Hr].
  destruct (status_report_rows_have_target_status
              [JObj [("name", JStr "Other")];
               JObj [("name", JStr "Recs"); ("status", JStr "WRAP_UP")]]
              [JObj [("name", JStr "Recs"); ("status", JStr "WRAP_UP")]]
              (JObj [("name", JStr "Recs"); ("status", JStr "WRAP_UP")])
              r eq_refl ltac:(apply list_elem_of_here) Hr)
    as (s & Hs & _ & Ht).
  exists s, r. auto.
Defined.

(** ** Events and outcomes of the serializers *)

Lemma outcome_bind {A B} (m : Eff A) (f : A -> Eff B) :
  outcome (effBind m f) = a ← outcome m; outcome (f a).
Proof.
  destruct m as [t [a|]]; cbn; [|reflexivity]. now destruct (f a).
Qed.

Lemma events_bind {A B} (m : Eff A) (f : A -> Eff B) :
  events (effBind m f)
  = (events m ++ match outcome m with
                 | Some a => events (f a)
                 | None => []
                 end)%list.
Proof.
  destruct m as [t [a|]]; cbn; [|now rewrite app_nil_r]. now destruct (f a).
Qed.

Lemma outcome_liftE {A} (o : option A) : outcome (liftE o) = o.
Proof. reflexivity. Qed.

Lemma events_liftE {A} (o : option A) : events (liftE o) = [].
Proof. reflexivity. Qed.

Lemma outcome_emit (e : Event) : outcome (emit e) = Some tt.
Proof. reflexivity. Qed.

Lemma events_emit (e : Event) : events (emit e) = [e].
Proof. reflexivity. Qed.

Lemma outcome_effRet {A} (a : A) : outcome (effRet a) = Some a.
Proof. reflexivity. Qed.

Lemma events_effRet {A} (a : A) : events (effRet a) = [].
Proof. reflexivity. Qed.

Ltac eff_simpl :=
  repeat first
    [ rewrite outcome_bind | rewrite events_bind
    | rewrite outcome_liftE | rewrite events_liftE
    | rewrite outcome_emit | rewrite events_emit
    | rewrite outcome_effRet | rewrite events_effRet
    | progress cbn [mbind option_bind app] ].

Lemma filesWritten_app (t u : list Event) :
  filesWritten (t ++ u)%list = (filesWritten t ++ filesWritten u)%list.
Proof. unfold filesWritten. apply flat_map_app. Qed.

Lemma loggedRows_app (t u : list Event) :
  loggedRows (t ++ u)%list = (loggedRows t ++ loggedRows u)%list.
Proof. unfold loggedRows. apply flat_map_app. Qed.

Lemma forEachE_outcome {A} (cb : A -> Eff unit) (l : list A) :
  Forall (fun x => is_Some (outcome (cb x))) l ->
  outcome (forEachE cb l) = Some tt.
Proof.
  induction 1 as [|x l [[] Hx] _ IH]; [reflexivity|].
  cbn [forEachE]. rewrite outcome_bind, Hx. exact IH.
Qed.

Lemma forEachE_files {A} (cb : A -> Eff unit) (l : list A) :
  (forall x, filesWritten (events (cb x)) = []) ->
  filesWritten (events (forEachE cb l)) = [].
Proof.
  intros H. induction l as [|x l IH]; [reflexivity|].
  cbn [forEachE]. rewrite events_bind, filesWritten_app, H.
  destruct (outcome (cb x)); [exact IH | reflexivity].
Qed.

Lemma forEachE_logged {A} (cb : A -> Eff unit) (l : list A) :
  (forall x, loggedRows (events (cb x)) = []) ->
  loggedRows (events (forEachE cb l)) = [].
Proof.
  intros H. induction l as [|x l IH]; [reflexivity|].
  cbn [forEachE]. rewrite events_bind, loggedRows_app, H.
  destruct (outcome (cb x)); [exact IH | reflexivity].
Qed.

(** The row loops: what they return is the rows, what they print is the
    rows made before the first exception, and they write nothing. *)
Lemma team_rowsE_spec (experiments : list JsValue) :
  outcome (Team.rowsE experiments) = teamCsvRows experiments
  /\ filesWritten (events (Team.rowsE experiments)) = []
  /\ (forall rows, teamCsvRows experiments = Some rows ->
        events (Team.rowsE experiments)
        = map (fun row => ConsoleLog (LCsvRow row)) rows).
Proof.
  unfold teamCsvRows. induction experiments as [|e l (IHo & IHf & IHe)].
  - repeat split. now intros rows [= <-].
  - cbn [Team.rowsE mapE].
    destruct (r ← Team.rowOf e; Team.csvRowOf r) as [row|].
    2:{ repeat split. intros rows [=]. }
    eff_simpl. rewrite IHo.
    split; [|split].
    + now destruct (mapE _ l).
    + change (ConsoleLog (LCsvRow row) :: ?t) with ([ConsoleLog (LCsvRow row)] ++ t)%list.
      rewrite !filesWritten_app, IHf. now destruct (mapE _ l).
    + intros rows'. destruct (mapE _ l) as [rows|]; [|discriminate].
      cbn [mbind option_bind]. intros [= <-].
      rewrite (IHe rows eq_refl). cbn [map]. now rewrite app_nil_r.
Qed.

Lemma ready_rowsE_spec (experiments : list JsValue) :
  outcome (Ready.rowsE experiments) = readyCsvRows experiments
  /\ filesWritten (events (Ready.rowsE experiments)) = []
  /\ (forall rows, readyCsvRows experiments = Some rows ->
        events (Ready.rowsE experiments)
        = map (fun row => ConsoleLog (LCsvRow row)) rows).
Proof.
  unfold readyCsvRows. induction experiments as [|e l (IHo & IHf & IHe)].
  - repeat split. now intros rows [= <-].
  - cbn [Ready.rowsE mapE].
    destruct (r ← Ready.rowOf e; Ready.csvRowOf r) as [row|].
    2:{ repeat split. intros rows [=]. }
    eff_simpl. rewrite IHo.
    split; [|split].
    + now destruct (mapE _ l).
    + change (ConsoleLog (LCsvRow row) :: ?t) with ([ConsoleLog (LCsvRow row)] ++ t)%list.
      rewrite !filesWritten_app, IHf. now destruct (mapE _ l).
    + intros rows'. destruct (mapE _ l) as [rows|]; [|discriminate].
      cbn [mbind option_bind]. intros [= <-].
      rewrite (IHe rows eq_refl). cbn [map]. now rewrite app_nil_r.
Qed.

Lemma summaryEmailOf_some (e : JsValue) :
  nullish e = false -> is_Some (Team.summaryEmailOf e).
Proof.
  intros He. unfold Team.summaryEmailOf.
  change (getProp e "owner" <||> getProp e "created_by"
          <||> getProp e "createdBy" <||> getProp e "author"
          <||> Some (JObj []))
    with (Team.ownerSourceOf e).
  destruct (ownerOf_some e He) as [o Ho]. unfold Team.ownerOf in Ho.
  destruct (Team.ownerSourceOf e) as [owner|]; [|discriminate Ho].
  cbn [mbind option_bind] in Ho |- *. rewrite summaryEmail_of_owner, Ho.
  eexists; reflexivity.
Qed.

Lemma mapE_in_some {A B} (cb : A -> option B) (l : list A) (r : list B) (x : A) :
  mapE cb l = Some r -> x ∈ l -> is_Some (cb x).
Proof.
  intros H Hx. apply mapE_Forall2 in H. apply list_elem_of_lookup in Hx.
  destruct Hx as [i Hi]. destruct (Forall2_lookup_l _ _ _ _ _ H Hi) as (y & _ & Hy).
  eexists; exact Hy.
Qed.

Lemma team_rows_then_emails (experiments : list JsValue) (rows : list string) :
  teamCsvRows experiments = Some rows ->
  is_Some (Team.uniqueOwnerEmails experiments)
  /\ length rows = length experiments.
Proof.
  intros H. split.
  - unfold Team.uniqueOwnerEmails.
    destruct (mapE_total Team.summaryEmailOf experiments) as [emails ->];
      [|eexists; reflexivity].
    apply Forall_forall. intros e He.
    destruct (mapE_in_some _ _ _ e H He) as [row Hrow].
    apply summaryEmailOf_some.
    destruct (Team.rowOf e) as [r|] eqn:Hr; [|discriminate Hrow].
    now apply team_rowOf_inv in Hr.
  - apply mapE_Forall2 in H. symmetry. exact (Forall2_length _ _ _ H).
Qed.

Lemma ready_rows_then_emails (experiments : list JsValue) (rows : list string) :
  readyCsvRows experiments = Some rows ->
  is_Some (Ready.uniqueOwnerEmails experiments)
  /\ length rows = length experiments.
Proof.
  intros H. split.
  - change Ready.uniqueOwnerEmails with Team.uniqueOwnerEmails.
    unfold Team.uniqueOwnerEmails.
    destruct (mapE_total Team.summaryEmailOf experiments) as [emails ->];
      [|eexists; reflexivity].
    apply Forall_forall. intros e He.
    destruct (mapE_in_some _ _ _ e H He) as [row Hrow].
    apply summaryEmailOf_some.
    destruct (Ready.rowOf e) as [r|] eqn:Hr; [|discriminate Hrow].
    now apply ready_rowOf_inv in Hr.
  - apply mapE_Forall2 in H. symmetry. exact (Forall2_length _ _ _ H).
Qed.

Lemma importSteps_spec (fileName : string) :
  outcome (forEachE (fun step => emit (ConsoleLog (LImportStep step fileName)))
                    (seq 0 8)) = Some tt
  /\ filesWritten
       (events (forEachE (fun step => emit (ConsoleLog (LImportStep step fileName)))
                         (seq 0 8))) = []
  /\ loggedRows
       (events (forEachE (fun step => emit (ConsoleLog (LImportStep step fileName)))
                         (seq 0 8))) = [].
Proof. repeat split. Qed.

Lemma team_display_spec (this : Team.Fetcher) (w : World) (e : JsValue) (l : list JsValue) :
  let m := Team.displayExperimentOwners this w (e :: l) in
  outcome m = (_ ← teamCsvRows (e :: l); Some tt)
  /\ filesWritten (events m)
     = match teamCsvRows (e :: l) with
       | Some rows =>
           if writable w
           then [(Team.fileNameOf this w, joinLines (Team.header :: rows))]
           else []
       | None => []
       end
  /\ (forall rows, teamCsvRows (e :: l) = Some rows -> loggedRows (events m) = rows).
Proof.
  cbv zeta. destruct (team_rowsE_spec (e :: l)) as (Ho & Hf & He).
  destruct (importSteps_spec (Team.fileNameOf this w)) as (Hso & Hsf & Hsl).
  unfold Team.displayExperimentOwners.
  change (length (e :: l) =? 0)%nat with false. cbv iota.
  eff_simpl. rewrite Ho.
  destruct (teamCsvRows (e :: l)) as [rows|] eqn:Hrows; cbn [mbind option_bind].
  2:{ rewrite app_nil_r. change (ConsoleLog ?x :: ?t) with ([ConsoleLog x] ++ t)%list.
      rewrite filesWritten_app, Hf. repeat split. intros rows [=]. }
  destruct (team_rows_then_emails _ _ Hrows) as [[u Hu] _].
  rewrite (He rows eq_refl). clear Ho Hf He.
  assert (Hrowfiles : filesWritten (map (fun row => ConsoleLog (LCsvRow row)) rows) = []).
  { clear. induction rows; [reflexivity | assumption]. }
  assert (Hrowlog : loggedRows (map (fun row => ConsoleLog (LCsvRow row)) rows) = rows).
  { clear. induction rows as [|r rows IH]; [reflexivity|]. cbn. now f_equal. }
  destruct (writable w); eff_simpl; rewrite Hu; eff_simpl; rewrite Hso;
    (split; [reflexivity|]);
    unfold filesWritten, loggedRows in *; cbn [flat_map app];
    rewrite !flat_map_app; cbn [flat_map app];
    rewrite Hrowfiles, Hrowlog, Hsf, Hsl;
    (split; [reflexivity|]); intros rows' [= <-]; now rewrite app_nil_r.
Qed.

Lemma ready_display_spec (w : World) (e : JsValue) (l : list JsValue) :
  let m := Ready.generateReadyExperimentsCSV w (e :: l) in
  outcome m = (_ ← readyCsvRows (e :: l); Some tt)
  /\ filesWritten (events m)
     = match readyCsvRows (e :: l) with
       | Some rows =>
           if writable w
           then [(Ready.fileNameOf w, joinLines (Ready.header :: rows))]
           else []
       | None => []
       end
  /\ (forall rows, readyCsvRows (e :: l) = Some rows -> loggedRows (events m) = rows).
Proof.
  cbv zeta. destruct (ready_rowsE_spec (e :: l)) as (Ho & Hf & He).
  destruct (importSteps_spec (Ready.fileNameOf w)) as (Hso & Hsf & Hsl).
  unfold Ready.generateReadyExperimentsCSV.
  change (length (e :: l) =? 0)%nat with false. cbv iota.
  eff_simpl. rewrite Ho.
  destruct (readyCsvRows (e :: l)) as [rows|] eqn:Hrows; cbn [mbind option_bind].
  2:{ rewrite app_nil_r. change (ConsoleLog ?x :: ?t) with ([ConsoleLog x] ++ t)%list.
      rewrite filesWritten_app, Hf. repeat split. intros rows [=]. }
  destruct (ready_rows_then_emails _ _ Hrows) as [[u Hu] _].
  rewrite (He rows eq_refl). clear Ho Hf He.
  assert (Hrowfiles : filesWritten (map (fun row => ConsoleLog (LCsvRow row)) rows) = []).
  { clear. induction rows; [reflexivity | assumption]. }
  assert (Hrowlog : loggedRows (map (fun row => ConsoleLog (LCsvRow row)) rows) = rows).
  { clear. induction rows as [|r rows IH]; [reflexivity|]. cbn. now f_equal. }
  destruct (writable w); eff_simpl; rewrite Hu; eff_simpl; rewrite Hso;
    (split; [reflexivity|]);
    unfold filesWritten, loggedRows in *; cbn [flat_map app];
    rewrite !flat_map_app; cbn [flat_map app];
    rewrite Hrowfiles, Hrowlog, Hsf, Hsl;
    (split; [reflexivity|]); intros rows' [= <-]; now rewrite app_nil_r.
Qed.

(** Printing the debugging list. *)
Lemma printItems_spec (l : list JsValue) :
  let m := forEachE (fun v => s <-- liftE (toString v) ;;
                              emit (ConsoleLog (LUniqueItem s))) l in
  outcome m = (_ ← mapE toString l; Some tt)
  /\ filesWritten (events m) = []
  /\ loggedRows (events m) = [].
Proof.
  cbv zeta. induction l as [|v l (IHo & IHf & IHl)]; [repeat split|].
  cbn [forEachE mapE]. eff_simpl.
  destruct (toString v) as [s|]; [|repeat split].
  eff_simpl. rewrite IHo.
  unfold filesWritten, loggedRows in *. cbn [flat_map app].
  rewrite IHf, IHl. repeat split. now destruct (mapE toString l).
Qed.

Lemma team_run_observed (this : Team.Fetcher) (w : World) (r : FetchOutcome) :
  let res := Team.run this w r in
  snd res = match teamRunRows this r with Some _ => 0 | None => 1 end
  /\ filesWritten (fst res)
     = match teamRunRows this r with
       | Some (row :: rows) =>
           if writable w
           then [(Team.fileNameOf this w, joinLines (Team.header :: row :: rows))]
           else []
       | _ => []
       end
  /\ (forall rows, teamRunRows this r = Some rows -> loggedRows (fst res) = rows).
Proof.
  cbv zeta.
  assert (Hrun :
    snd (Team.run this w r)
    = match outcome (Team.runBody this w r) with Some _ => 0 | None => 1 end
    /\ filesWritten (fst (Team.run this w r))
       = filesWritten (events (Team.runBody this w r))
    /\ loggedRows (fst (Team.run this w r))
       = loggedRows (events (Team.runBody this w r))).
  { unfold Team.run. destruct (Team.runBody this w r) as [t [[]|]]; cbn [fst snd outcome events].
    - repeat split.
    - rewrite filesWritten_app, loggedRows_app, !app_nil_r. repeat split. }
  destruct Hrun as (-> & -> & ->).
  destruct r as [data| | |]; try (repeat split; intros rows [=]).
  unfold Team.runBody, teamRunRows, Team.fetchExperiments. eff_simpl.
  destruct data as [| |b|n|t|s|items|ps];
    try (repeat split; cbn; now intros rows [= <-]).
  cbn [teamPrelude]. eff_simpl.
  destruct (mapE Team.teamIdOf items) as [found|];
    [|eff_simpl; repeat split; intros rows [=]].
  eff_simpl.
  destruct (printItems_spec (setOf [] (filter (fun v => truthy v = true) found)))
    as (Hpo & Hpf & Hpl). cbv zeta in Hpo, Hpf, Hpl.
  rewrite Hpo.
  unfold filesWritten, loggedRows in *. cbn [flat_map app].
  rewrite !flat_map_app, Hpf, Hpl. cbn [app].
  destruct (mapE toString _) as [strs|]; eff_simpl;
    [|repeat split; intros rows [=]].
  cbn [Team.filterByTeam isArray negb]. eff_simpl.
  destruct (filterM _ items) as [kept|]; eff_simpl;
    [|repeat split; intros rows [=]].
  destruct kept as [|e l].
  { repeat split. cbn. now intros rows [= <-]. }
  destruct (team_display_spec this w e l) as (Hdo & Hdf & Hdl).
  cbv zeta in Hdo, Hdf, Hdl. unfold filesWritten, loggedRows in Hdf, Hdl.
  rewrite Hdo, Hdf.
  destruct (teamCsvRows (e :: l)) as [rows|] eqn:Hrows; cbn [mbind option_bind].
  - split; [reflexivity|]. split.
    + destruct rows as [|row rows]; [|reflexivity].
      apply team_rows_then_emails in Hrows. destruct Hrows as [_ Hlen]. discriminate Hlen.
    + intros rows' [= <-]. now apply Hdl.
  - repeat split. intros rows [=].
Qed.

Lemma ready_run_observed (w : World) (r : FetchOutcome) :
  let res := Ready.run w r in
  snd res = match readyRunRows r with Some _ => 0 | None => 1 end
  /\ filesWritten (fst res)
     = match readyRunRows r with
       | Some (row :: rows) =>
           if writable w
           then [(Ready.fileNameOf w, joinLines (Ready.header :: row :: rows))]
           else []
       | _ => []
       end
  /\ (forall rows, readyRunRows r = Some rows -> loggedRows (fst res) = rows).
Proof.
  cbv zeta.
  assert (Hrun :
    snd (Ready.run w r)
    = match outcome (Ready.runBody w r) with Some _ => 0 | None => 1 end
    /\ filesWritten (fst (Ready.run w r))
       = filesWritten (events (Ready.runBody w r))
    /\ loggedRows (fst (Ready.run w r))
       = loggedRows (events (Ready.runBody w r))).
  { unfold Ready.run. destruct (Ready.runBody w r) as [t [[]|]]; cbn [fst snd outcome events].
    - repeat split.
    - rewrite filesWritten_app, loggedRows_app, !app_nil_r. repeat split. }
  destruct Hrun as (-> & -> & ->).
  destruct r as [data| | |]; try (repeat split; intros rows [=]).
  unfold Ready.runBody, readyRunRows, Ready.fetchExperiments. eff_simpl.
  destruct data as [| |b|n|t|s|items|ps];
    try (repeat split; cbn; now intros rows [= <-]).
  cbn [readyPrelude]. eff_simpl.
  destruct (mapE Ready.statusOf items) as [found|];
    [|eff_simpl; repeat split; intros rows [=]].
  eff_simpl.
  destruct (printItems_spec (setOf [] (filter (fun v => truthy v = true) found)))
    as (Hpo & Hpf & Hpl). cbv zeta in Hpo, Hpf, Hpl.
  rewrite Hpo.
  unfold filesWritten, loggedRows in *. cbn [flat_map app].
  rewrite !flat_map_app, Hpf, Hpl. cbn [app].
  destruct (mapE toString _) as [strs|]; eff_simpl;
    [|repeat split; intros rows [=]].
  cbn [Ready.filterByTargetStatuses isArray negb]. eff_simpl.
  destruct (filterM _ items) as [kept|]; eff_simpl;
    [|repeat split; intros rows [=]].
  destruct kept as [|e l].
  { repeat split. cbn. now intros rows [= <-]. }
  destruct (ready_display_spec w e l) as (Hdo & Hdf & Hdl).
  cbv zeta in Hdo, Hdf, Hdl. unfold filesWritten, loggedRows in Hdf, Hdl.
  rewrite Hdo, Hdf.
  destruct (readyCsvRows (e :: l)) as [rows|] eqn:Hrows; cbn [mbind option_bind].
  - split; [reflexivity|]. split.
    + destruct rows as [|row rows]; [|reflexivity].
      apply ready_rows_then_emails in Hrows. destruct Hrows as [_ Hlen]. discriminate Hlen.
    + intros rows' [= <-]. now apply Hdl.
  - repeat split. intros rows [=].
Qed.

(** ** What a run leaves behind *)

(** X9.  A run that ends with status 1 has written no file, in either
    script: every exception a run can meet comes before the write, and a
    failed request or a [null] record never leaves a partial report. *)
Theorem failed_run_writes_nothing (this : Team.Fetcher) (w : World) (r : FetchOutcome) :
  (snd (Team.run this w r) = 1 -> filesWritten (fst (Team.run this w r)) = [])
  /\ (snd (Ready.run w r) = 1 -> filesWritten (fst (Ready.run w r)) = [])
  /\ (snd (Team.run this w r) = 0 \/ snd (Team.run this w r) = 1)
  /\ (snd (Ready.run w r) = 0 \/ snd (Ready.run w r) = 1).
Proof.
  destruct (team_run_observed this w r) as (Hts & Htf & _).
  destruct (ready_run_observed w r) as (Hrs & Hrf & _).
  cbv zeta in *. rewrite Hts, Htf, Hrs, Hrf.
  repeat split.
  - destruct (teamRunRows this r); [discriminate | reflexivity].
  - destruct (readyRunRows r); [discriminate | reflexivity].
  - destruct (teamRunRows this r); auto.
  - destruct (readyRunRows r); auto.
Qed.

Lemma failed_run_writes_nothing_witness :
  snd (Ready.run sampleWorld (Fetched (JArr [JObj [("status", JStr "ready")]; JNull]))) = 1
  /\ filesWritten
       (fst (Ready.run sampleWorld
                       (Fetched (JArr [JObj [("status", JStr "ready")]; JNull]))))
     = [].
Proof.
  split; [reflexivity|].
  apply (proj1 (proj2 (failed_run_writes_nothing
                         {| Team.apiKey := "k"; Team.baseUrl := "u"; Team.teamId := "1" |}
                         sampleWorld
                         (Fetched (JArr [JObj [("status", JStr "ready")]; JNull]))))).
  reflexivity.
Defined.

(** X10.  A write that fails is not fatal: with and without a writable
    disk a run ends with the same status and prints the same rows; without
    it no file is recorded. *)
Theorem write_failure_is_not_fatal (this : Team.Fetcher) (w : World) (r : FetchOutcome) :
  let w' := {| isoNow := isoNow w; cwd := cwd w; writable := false |} in
  snd (Team.run this w' r) = snd (Team.run this w r)
  /\ snd (Ready.run w' r) = snd (Ready.run w r)
  /\ filesWritten (fst (Team.run this w' r)) = []
  /\ filesWritten (fst (Ready.run w' r)) = []
  /\ (snd (Team.run this w r) = 0 ->
      loggedRows (fst (Team.run this w' r)) = loggedRows (fst (Team.run this w r)))
  /\ (snd (Ready.run w r) = 0 ->
      loggedRows (fst (Ready.run w' r)) = loggedRows (fst (Ready.run w r))).
Proof.
  cbv zeta.
  set (w' := {| isoNow := isoNow w; cwd := cwd w; writable := false |}).
  destruct (team_run_observed this w r) as (Hts & _ & Htl).
  destruct (team_run_observed this w' r) as (Hts' & Htf' & Htl').
  destruct (ready_run_observed w r) as (Hrs & _ & Hrl).
  destruct (ready_run_observed w' r) as (Hrs' & Hrf' & Hrl').
  cbv zeta in *. rewrite Hts, Hts', Hrs, Hrs', Htf', Hrf'.
  repeat split.
  - now destruct (teamRunRows this r) as [[|]|].
  - now destruct (readyRunRows r) as [[|]|].
  - destruct (teamRunRows this r) as [rows|]; [|discriminate].
    intros _. now rewrite (Htl rows), (Htl' rows).
  - destruct (readyRunRows r) as [rows|]; [|discriminate].
    intros _. now rewrite (Hrl rows), (Hrl' rows).
Qed.

Lemma write_failure_is_not_fatal_witness :
  snd (Ready.run {| isoNow := isoNow sampleWorld; cwd := cwd sampleWorld;
                    writable := false |}
                 (Fetched samplePayload)) = 0
  /\ loggedRows (fst (Ready.run {| isoNow := isoNow sampleWorld; cwd := cwd sampleWorld;
                                   writable := false |}
                                (Fetched samplePayload)))
     = loggedRows (fst (Ready.run sampleWorld (Fetched samplePayload))).
Proof.
  split; [reflexivity|].
  apply (proj2 (proj2 (proj2 (proj2 (proj2
           (write_failure_is_not_fatal
              {| Team.apiKey := "k"; Team.baseUrl := "u"; Team.teamId := "1" |}
              sampleWorld (Fetched samplePayload))))))).
  reflexivity.
Defined.

(** X11.  A run that ends with status 0 on a writable disk writes its
    report exactly when the filter kept a record, and then one file only:
    the header line followed by the rows it printed, one row per kept
    record in the filter's order, under the name made of the team id and
    the day.  When nothing is kept there is no file. *)
Theorem report_file_content (this : Team.Fetcher) (w : World) (data : JsValue) :
  writable w = true ->
  snd (Team.run this w (Fetched data)) = 0 ->
  exists kept rows,
    outcome (Team.filterByTeam data (JStr (Team.teamId this))) = Some kept
    /\ teamCsvRows kept = Some rows
    /\ length rows = length kept
    /\ loggedRows (fst (Team.run this w (Fetched data))) = rows
    /\ filesWritten (fst (Team.run this w (Fetched data)))
       = match kept with
         | [] => []
         | _ :: _ =>
             [("eppo_experiments_team_" ++ Team.teamId this ++ "_" ++ today w
               ++ ".csv",
               joinLines (Team.header :: rows))]
         end.
Proof.
  intros Hw. destruct (team_run_observed this w (Fetched data)) as (Hs & Hf & Hl).
  cbv zeta in *. rewrite Hs, Hf, Hw. clear Hs Hf.
  destruct (teamRunRows this (Fetched data)) as [rows|] eqn:Hrows; [|discriminate].
  intros _. unfold teamRunRows in Hrows.
  destruct (teamPrelude data); [|discriminate Hrows]. cbn [mbind option_bind] in Hrows.
  destruct (outcome (Team.filterByTeam data (JStr (Team.teamId this))))
    as [kept|]; [|discriminate Hrows]. cbn [mbind option_bind] in Hrows.
  exists kept, rows. split; [reflexivity|]. split; [exact Hrows|].
  destruct (team_rows_then_emails kept rows Hrows) as [_ Hlen].
  split; [exact Hlen|]. split; [now apply Hl|].
  destruct kept as [|e l], rows as [|row rows]; try discriminate Hlen; reflexivity.
Qed.

Lemma report_file_content_witness :
  exists kept rows,
    outcome (Team.filterByTeam samplePayload (JStr "123")) = Some kept
    /\ length rows = length kept
    /\ filesWritten
         (fst (Team.run {| Team.apiKey := "k"; Team.baseUrl := "u";
                           Team.teamId := "123" |}
                        sampleWorld (Fetched samplePayload)))
       = [("eppo_experiments_team_123_2024-01-15.csv", joinLines (Team.header :: rows))].
Proof.
  destruct (report_file_content
              {| Team.apiKey := "k"; Team.baseUrl := "u"; Team.teamId := "123" |}
              sampleWorld samplePayload eq_refl eq_refl)
    as (kept & rows & Hkept & _ & Hlen & _ & Hfile).
  exists kept, rows. split; [exact Hkept|]. split; [exact Hlen|].
  rewrite Hfile. cbn in Hkept. injection Hkept as <-. reflexivity.
Defined.

(** X12.  The same for the status report: status 0 on a writable disk
    means one file exactly when a record was kept, named after the day,
    holding the header and the printed rows, one per kept record. *)
Theorem status_report_file_content (w : World) (data : JsValue) :
  writable w = true ->
  snd (Ready.run w (Fetched data)) = 0 ->
  exists kept rows,
    outcome (Ready.filterByTargetStatuses data) = Some kept
    /\ readyCsvRows kept = Some rows
    /\ length rows = length kept
    /\ loggedRows (fst (Ready.run w (Fetched data))) = rows
    /\ filesWritten (fst (Ready.run w (Fetched data)))
       = match kept with
         | [] => []
         | _ :: _ =>
             [("eppo_ready_wrap_up_experiments_" ++ today w ++ ".csv",
               joinLines (Ready.header :: rows))]
         end.
Proof.
  intros Hw. destruct (ready_run_observed w (Fetched data)) as (Hs & Hf & Hl).
  cbv zeta in *. rewrite Hs, Hf, Hw. clear Hs Hf.
  destruct (readyRunRows (Fetched data)) as [rows|] eqn:Hrows; [|discriminate].
  intros _. unfold readyRunRows in Hrows.
  destruct (readyPrelude data); [|discriminate Hrows]. cbn [mbind option_bind] in Hrows.
  destruct (outcome (Ready.filterByTargetStatuses data))
    as [kept|]; [|discriminate Hrows]. cbn [mbind option_bind] in Hrows.
  exists kept, rows. split; [reflexivity|]. split; [exact Hrows|].
  destruct (ready_rows_then_emails kept rows Hrows) as [_ Hlen].
  split; [exact Hlen|]. split; [now apply Hl|].
  destruct kept as [|e l], rows as [|row rows]; try discriminate Hlen; reflexivity.
Qed.

Lemma status_report_file_content_witness :
  exists kept rows,
    outcome (Ready.filterByTargetStatuses samplePayload) = Some kept
    /\ length rows = length kept
    /\ filesWritten (fst (Ready.run sampleWorld (Fetched samplePayload)))
       = [("eppo_ready_wrap_up_experiments_2024-01-15.csv",
           joinLines (Ready.header :: rows))].
Proof.
  destruct (status_report_file_content sampleWorld samplePayload eq_refl eq_refl)
    as (kept & rows & Hkept & _ & Hlen & _ & Hfile).
  exists kept, rows. split; [exact Hkept|]. split; [exact Hlen|].
  rewrite Hfile. cbn in Hkept. injection Hkept as <-. reflexivity.
Defined.

(** ** Payloads that cannot raise *)

Section JsValueInduction.

Variable P : JsValue -> Prop.
Hypothesis Pundefined : P JUndefined.
Hypothesis Pnull : P JNull.
Hypothesis Pbool : forall b, P (JBool b).
Hypothesis Pnum : forall n, P (JNum n).
Hypothesis Pnumtext : forall t, P (JNumText t).
Hypothesis Pstr : forall s, P (JStr s).
Hypothesis Parr : forall items, Forall P items -> P (JArr items).
Hypothesis Pobj : forall ps, Forall (fun kv => P (snd kv)) ps -> P (JObj ps).

(** Induction on a value, with the hypothesis on every element of an array
    and every property of an object. *)
Fixpoint JsValue_nested_ind (v : JsValue) : P v :=
  match v with
  | JUndefined => Pundefined
  | JNull => Pnull
  | JBool b => Pbool b
  | JNum n => Pnum n
  | JNumText t => Pnumtext t
  | JStr s => Pstr s
  | JArr items =>
      Parr items
        ((fix go (l : list JsValue) : Forall P l :=
            match l with
            | [] => @List.Forall_nil _ P
            | x :: l' => @List.Forall_cons _ P x l' (JsValue_nested_ind x) (go l')
            end) items)
  | JObj ps =>
      Pobj ps
        ((fix go (l : list (string * JsValue)) : Forall (fun kv => P (snd kv)) l :=
            match l with
            | [] => @List.Forall_nil _ _
            | kv :: l' =>
                @List.Forall_cons _ (fun kv => P (snd kv)) kv l'
                                  (JsValue_nested_ind (snd kv)) (go l')
            end) ps)
  end.

End JsValueInduction.

Lemma toString_arr (items : list JsValue) :
  toString (JArr items)
  = joinWith "," (map (fun x => if nullish x then Some "" else toString x) items).
Proof. reflexivity. Qed.

Lemma plain_arr (items : list JsValue) :
  plain (JArr items) = forallb plain items.
Proof. reflexivity. Qed.

Lemma plain_obj (ps : list (string * JsValue)) :
  plain (JObj ps)
  = match lookupProp "toString" ps with
    | Some _ => false
    | None => forallb (fun kv => plain (snd kv)) ps
    end.
Proof.
  cbn [plain]. destruct (lookupProp "toString" ps); [reflexivity|].
  induction ps as [|[k x] l IH]; [reflexivity|].
  cbn [forallb snd]. now rewrite <- IH.
Qed.

Lemma joinWith_some (sep : string) (parts : list (option string)) :
  Forall is_Some parts -> is_Some (joinWith sep parts).
Proof.
  induction 1 as [|p l [s ->] _ [r Hr]]; [eexists; reflexivity|].
  cbn [joinWith]. destruct l as [|q l]; [eexists; reflexivity|].
  rewrite Hr. eexists; reflexivity.
Qed.

Lemma plain_toString (v : JsValue) :
  plain v = true -> is_Some (toString v).
Proof.
  induction v as [| |b|n|t|s|items IH|ps IH] using JsValue_nested_ind;
    try (intros _; eexists; reflexivity).
  - destruct b; intros _; eexists; reflexivity.
  - rewrite plain_arr, toString_arr. intros Hall. apply joinWith_some.
    apply Forall_fmap. rewrite forallb_forall in Hall.
    rewrite Forall_forall in IH |- *. intros x Hx. cbn.
    destruct (nullish x); [eexists; reflexivity|].
    apply IH; [exact Hx|]. apply Hall. now apply list_elem_of_In.
  - rewrite plain_obj. cbn [toString].
    destruct (lookupProp "toString" ps); [discriminate|]. intros _. eexists; reflexivity.
Qed.

Lemma lookupProp_plain (k : string) (ps : list (string * JsValue)) (x : JsValue) :
  forallb (fun kv => plain (snd kv)) ps = true ->
  lookupProp k ps = Some x -> plain x = true.
Proof.
  induction ps as [|[k' y] l IH]; cbn [lookupProp forallb snd]; [discriminate|].
  rewrite andb_true_iff. intros [Hy Hl].
  destruct (String.eqb k k'); [now intros [= <-] | now apply IH].
Qed.

Lemma plain_field (v : JsValue) (k : string) :
  plain v = true -> plain (field v k) = true.
Proof.
  destruct v as [| |b|n|t|s|items|ps]; try reflexivity.
  rewrite plain_obj. cbn [field].
  destruct (lookupProp "toString" ps); [discriminate|]. intros Hall.
  destruct (lookupProp k ps) as [x|] eqn:Hx; [|reflexivity].
  exact (lookupProp_plain k ps x Hall Hx).
Qed.

Lemma plain_firstTruthy (cands : list JsValue) (dflt : JsValue) :
  Forall (fun c => plain c = true) cands -> plain dflt = true ->
  plain (default dflt (firstTruthy cands)) = true.
Proof.
  intros Hall Hd. destruct (firstTruthy cands) as [v|] eqn:Hv; [|exact Hd].
  unfold firstTruthy in Hv. apply find_some in Hv. destruct Hv as [Hin _].
  rewrite Forall_forall in Hall. apply Hall. now apply list_elem_of_In.
Qed.

Ltac plain_locations :=
  repeat first [ apply List.Forall_cons | apply List.Forall_nil
               | apply plain_field | assumption | reflexivity ].

Lemma plain_resolvedTeamId (e : JsValue) :
  plain e = true -> plain (resolvedTeamId e) = true.
Proof. intros H. apply plain_firstTruthy; unfold teamLocations; plain_locations. Qed.

Lemma plain_status (e : JsValue) (dflt : JsValue) :
  plain e = true -> plain dflt = true ->
  plain (default dflt (firstTruthy (statusLocations e))) = true.
Proof. intros H Hd. apply plain_firstTruthy; unfold statusLocations; plain_locations. Qed.

Lemma plain_resolvedId (e : JsValue) :
  plain e = true -> plain (resolvedId e) = true.
Proof. intros H. apply plain_firstTruthy; unfold idLocations; plain_locations. Qed.

Lemma plain_owner (e : JsValue) (o : Owner) :
  nullish e = false -> plain e = true -> Team.ownerOf e = Some o ->
  plain (ownerName o) = true /\ plain (ownerEmail o) = true.
Proof.
  intros He Hp. unfold Team.ownerOf. rewrite ownerSourceOf_eq by assumption.
  cbn [mbind option_bind].
  assert (Hsrc : plain (default (JObj []) (firstTruthy (ownerLocations e))) = true)
    by (apply plain_firstTruthy; unfold ownerLocations; plain_locations).
  assert (Hnn : nullish (default (JObj []) (firstTruthy (ownerLocations e))) = false).
  { destruct (firstTruthy (ownerLocations e)) as [v|] eqn:Hv; [|reflexivity].
    apply firstTruthy_truthy in Hv. now apply truthy_not_nullish. }
  destruct (default (JObj []) (firstTruthy (ownerLocations e)))
    as [| |b|n|t|s|items|ps] eqn:Hsource; try discriminate Hnn;
    try (intros [= <-]; split; reflexivity).
  - cbn. destruct (includes "@" s); intros [= <-]; cbn [ownerName ownerEmail].
    + split; [|reflexivity]. now destruct (split "@" s).
    + split; reflexivity.
  - rewrite resolveOwner_object by reflexivity. intros [= <-].
    split.
    + change (plain (default (JStr "") (firstTruthy (nameLocations (JObj ps)))) = true).
      apply plain_firstTruthy; unfold nameLocations; plain_locations.
    + change (plain (default (JStr "") (firstTruthy (emailLocations (JObj ps)))) = true).
      apply plain_firstTruthy; unfold emailLocations; plain_locations.
Qed.

Lemma name_chain_eq (e : JsValue) :
  nullish e = false ->
  (getProp e "name" <||> getProp e "title" <||> Some (JStr "Unnamed Experiment"))
  = Some (default (JStr "Unnamed Experiment")
                  (firstTruthy [field e "name"; field e "title"])).
Proof.
  intros He. rewrite !getProp_field by assumption.
  match goal with
  | |- ?lhs = _ =>
      change lhs with
        (foldr (fun c acc => Some c <||> acc) (Some (JStr "Unnamed Experiment"))
               [field e "name"; field e "title"])
  end.
  rewrite orElse_chain. now destruct (firstTruthy _).
Qed.

Lemma escapeCsv_plain (v : JsValue) :
  plain v = true -> is_Some (Team.escapeCsv v).
Proof.
  intros H. rewrite team_escapeCsv_escaped.
  destruct (plain_toString v H) as [s ->]. eexists; reflexivity.
Qed.

Lemma team_row_plain (e : JsValue) :
  nullish e = false -> plain e = true ->
  is_Some (r ← Team.rowOf e; Team.csvRowOf r).
Proof.
  intros He Hp. unfold Team.rowOf.
  rewrite name_chain_eq by assumption. cbn [mbind option_bind].
  rewrite id_chain_eq by assumption. cbn [mbind option_bind].
  destruct (ownerOf_some e He) as [o Ho]. rewrite Ho. cbn [mbind option_bind].
  destruct (plain_owner e o He Hp Ho) as [Hname Hemail].
  destruct (plain_toString _ (plain_resolvedId e Hp)) as [sid Hsid].
  assert (Hurl : exists url,
             (if truthy (resolvedId e)
              then s ← toString (resolvedId e); Some (urlPrefix ++ s)
              else Some "") = Some url).
  { destruct (truthy (resolvedId e)); [rewrite Hsid|]; eexists; reflexivity. }
  destruct Hurl as [url ->]. cbn [mbind option_bind].
  unfold Team.csvRowOf.
  cbn [Team.experimentName Team.experimentId Team.rowOwner Team.experimentUrl].
  destruct (escapeCsv_plain
              (default (JStr "Unnamed Experiment")
                       (firstTruthy [field e "name"; field e "title"])))
    as [c1 ->]; [apply plain_firstTruthy; plain_locations|].
  destruct (escapeCsv_plain _ (plain_resolvedId e Hp)) as [c2 ->].
  destruct (escapeCsv_plain _ Hname) as [c3 ->].
  destruct (escapeCsv_plain _ Hemail) as [c4 ->].
  destruct (escapeCsv_plain (JStr url) eq_refl) as [c5 ->].
  eexists; reflexivity.
Qed.

Lemma ready_row_plain (e : JsValue) :
  nullish e = false -> plain e = true ->
  is_Some (r ← Ready.rowOf e; Ready.csvRowOf r).
Proof.
  intros He Hp. unfold Ready.rowOf.
  rewrite name_chain_eq by assumption. cbn [mbind option_bind].
  rewrite id_chain_eq by assumption. cbn [mbind option_bind].
  rewrite rowStatus_chain_eq by assumption. cbn [mbind option_bind].
  destruct (ownerOf_some e He) as [o Ho].
  change (Ready.ownerOf e) with (Team.ownerOf e). rewrite Ho. cbn [mbind option_bind].
  destruct (plain_owner e o He Hp Ho) as [Hname Hemail].
  destruct (plain_toString _ (plain_resolvedId e Hp)) as [sid Hsid].
  assert (Hurl : exists url,
             (if truthy (resolvedId e)
              then s ← toString (resolvedId e); Some (urlPrefix ++ s)
              else Some "") = Some url).
  { destruct (truthy (resolvedId e)); [rewrite Hsid|]; eexists; reflexivity. }
  destruct Hurl as [url ->]. cbn [mbind option_bind].
  unfold Ready.csvRowOf. change Ready.escapeCsv with Team.escapeCsv.
  cbn [Ready.experimentName Ready.experimentId Ready.experimentStatus
       Ready.rowOwner Ready.experimentUrl].
  destruct (escapeCsv_plain _ Hname) as [c1 ->].
  destruct (escapeCsv_plain _ Hemail) as [c2 ->].
  destruct (escapeCsv_plain
              (default (JStr "Unnamed Experiment")
                       (firstTruthy [field e "name"; field e "title"])))
    as [c3 ->]; [apply plain_firstTruthy; plain_locations|].
  destruct (escapeCsv_plain _ (plain_resolvedId e Hp)) as [c4 ->].
  destruct (escapeCsv_plain _ (plain_status e (JStr "") Hp eq_refl)) as [c5 ->].
  destruct (escapeCsv_plain (JStr url) eq_refl) as [c6 ->].
  eexists; reflexivity.
Qed.

Lemma printable_set (found : list JsValue) :
  Forall (fun v => plain v = true) found ->
  is_Some (mapE toString (setOf [] (filter (fun v => truthy v = true) found))).
Proof.
  intros Hall. apply mapE_total. apply Forall_forall. intros v Hv.
  apply setOf_elem in Hv. destruct Hv as [Hv _].
  apply list_elem_of_filter in Hv. destruct Hv as [_ Hv].
  rewrite Forall_forall in Hall. apply plain_toString. now apply Hall.
Qed.

Lemma mapE_Forall_out {A B} (cb : A -> option B) (P : A -> Prop) (Q : B -> Prop)
    (l : list A) :
  Forall P l -> (forall x, P x -> exists y, cb x = Some y /\ Q y) ->
  exists r, mapE cb l = Some r /\ Forall Q r.
Proof.
  intros Hall Hcb. induction Hall as [|x l Hx _ (r & Hr & HQ)].
  - exists []. split; [reflexivity | constructor].
  - destruct (Hcb x Hx) as (y & Hy & HQy). exists (y :: r). split.
    + cbn [mapE]. now rewrite Hy, Hr.
    + now constructor.
Qed.

(** X13.  A payload of records none of which is [null] and none of which
    holds an object with a [toString] key cannot make a run raise: both
    scripts end with status 0 on it, whatever the records hold otherwise
    (missing fields, numbers or arrays where text is expected, any team
    identifier). *)
Theorem plain_payload_runs_clean
    (this : Team.Fetcher) (w : World) (items : list JsValue) :
  Forall (fun e => nullish e = false /\ plain e = true) items ->
  snd (Team.run this w (Fetched (JArr items))) = 0
  /\ snd (Ready.run w (Fetched (JArr items))) = 0.
Proof.
  intros Hall.
  destruct (team_run_observed this w (Fetched (JArr items))) as (-> & _).
  destruct (ready_run_observed w (Fetched (JArr items))) as (-> & _).
  split.
  - unfold teamRunRows, teamPrelude.
    destruct (mapE_Forall_out Team.teamIdOf _ (fun v => plain v = true) items Hall)
      as (found & -> & Hfound).
    { intros e [He Hp]. eexists. split; [now apply teamIdOf_eq|].
      now apply plain_resolvedTeamId. }
    cbn [mbind option_bind].
    destruct (printable_set found Hfound) as [strs ->]. cbn [mbind option_bind].
    cbn [Team.filterByTeam isArray negb liftE outcome snd].
    destruct (filterM (Team.inTeam (JStr (Team.teamId this))) items) as [kept|] eqn:Hkept.
    2:{ exfalso.
        assert (Hsome : is_Some (filterM (Team.inTeam (JStr (Team.teamId this))) items)).
        { apply filterM_total. eapply Forall_impl; [exact Hall|].
          intros e [He Hp]. cbn beta. rewrite inTeam_eq by assumption.
          unfold parseInt.
          destruct (plain_toString _ (plain_resolvedTeamId e Hp)) as [s ->].
          eexists; reflexivity. }
        rewrite Hkept in Hsome. now destruct Hsome. }
    cbn [mbind option_bind].
    destruct (mapE_total (fun e => r ← Team.rowOf e; Team.csvRowOf r) kept) as [rows Hrows].
    { apply filterM_filter in Hkept. subst kept. apply Forall_forall.
      intros e He. apply list_elem_of_filter in He. destruct He as [_ He].
      rewrite Forall_forall in Hall. destruct (Hall e He). now apply team_row_plain. }
    unfold teamCsvRows. now rewrite Hrows.
  - unfold readyRunRows, readyPrelude.
    destruct (mapE_Forall_out Ready.statusOf _ (fun v => plain v = true) items Hall)
      as (found & -> & Hfound).
    { intros e [He Hp]. eexists. split; [now apply statusOf_eq|].
      apply plain_status; [assumption | now repeat apply plain_field]. }
    cbn [mbind option_bind].
    destruct (printable_set found Hfound) as [strs ->]. cbn [mbind option_bind].
    cbn [Ready.filterByTargetStatuses isArray negb liftE outcome snd].
    destruct (filterM Ready.hasTargetStatus items) as [kept|] eqn:Hkept.
    2:{ exfalso.
        assert (Hsome : is_Some (filterM Ready.hasTargetStatus items)).
        { apply filterM_total. eapply Forall_impl; [exact Hall|].
          intros e [He Hp]. cbn beta. rewrite hasTargetStatus_eq by assumption.
          pose proof (plain_status e JUndefined Hp eq_refl) as Hst.
          destruct (firstTruthy (statusLocations e)) as [v|]; [|eexists; reflexivity].
          destruct (plain_toString v Hst) as [s ->]. eexists; reflexivity. }
        rewrite Hkept in Hsome. now destruct Hsome. }
    cbn [mbind option_bind].
    destruct (mapE_total (fun e => r ← Ready.rowOf e; Ready.csvRowOf r) kept) as [rows Hrows].
    { apply filterM_filter in Hkept. subst kept. apply Forall_forall.
      intros e He. apply list_elem_of_filter in He. destruct He as [_ He].
      rewrite Forall_forall in Hall. destruct (Hall e He). now apply ready_row_plain. }
    unfold readyCsvRows. now rewrite Hrows.
Qed.

Lemma plain_payload_runs_clean_witness :
  snd (Team.run {| Team.apiKey := "k"; Team.baseUrl := "u"; Team.teamId := "123" |}
                sampleWorld
                (Fetched (JArr [JObj [("name", JArr [JNum 1; JNull]);
                                      ("team_id", JObj [("id", JNum 123)])];
                                JStr "not a record"; JNum 4]))) = 0.
Proof.
  apply (plain_payload_runs_clean
           {| Team.apiKey := "k"; Team.baseUrl := "u"; Team.teamId := "123" |}
           sampleWorld
           [JObj [("name", JArr [JNum 1; JNull]);
                  ("team_id", JObj [("id", JNum 123)])];
            JStr "not a record"; JNum 4]).
  repeat constructor.
Defined.

(** ** Configuration and failed requests *)

Lemma envSet_false (x : option string) :
  envSet x = false <-> x = None \/ x = Some "".
Proof.
  destruct x as [s|]; cbn [envSet].
  - destruct (String.eqb_spec s "") as [->|Hne]; cbn [negb].
    + split; [now right | reflexivity].
    + split; [discriminate | intros [[=]|[= ->]]; contradiction].
  - split; [now left | reflexivity].
Qed.

(** X14.  The configuration is checked before anything else.  The team
    report refuses to start exactly when [EPPO_API_KEY] or [TEAM_ID] is
    absent or empty, the status report exactly when [EPPO_API_KEY] is; a
    refused start prints nothing, requests nothing and ends with status 1.
    Otherwise the run uses the key and team id as given, and the base URL
    given unless it is absent or empty, when it is the default one. *)
Theorem configuration_checked_first (env : Env) (w : World) (r : FetchOutcome) :
  (Team.construct env = None <->
   (EPPO_API_KEY env = None \/ EPPO_API_KEY env = Some "")
   \/ (TEAM_ID env = None \/ TEAM_ID env = Some ""))
  /\ (Ready.construct env = None <->
      EPPO_API_KEY env = None \/ EPPO_API_KEY env = Some "")
  /\ (Team.construct env = None -> Team.main env w r = ([], 1))
  /\ (Ready.construct env = None -> Ready.main env w r = ([], 1))
  /\ (forall this, Team.construct env = Some this ->
        Team.main env w r = Team.run this w r
        /\ Ready.main env w r = Ready.run w r
        /\ EPPO_API_KEY env = Some (Team.apiKey this)
        /\ TEAM_ID env = Some (Team.teamId this)
        /\ Team.teamId this <> ""
        /\ (EPPO_BASE_URL env = Some (Team.baseUrl this)
            \/ ((EPPO_BASE_URL env = None \/ EPPO_BASE_URL env = Some "")
                /\ Team.baseUrl this = "https://eppo.cloud/api/v1"))).
Proof.
  rewrite <- !envSet_false. unfold Team.main, Ready.main, Team.construct, Ready.construct.
  destruct (envSet (EPPO_API_KEY env)) eqn:Hkey; cbn [negb].
  2:{ repeat split; auto; try discriminate. }
  destruct (envSet (TEAM_ID env)) eqn:Hteam; cbn [negb].
  2:{ repeat split; auto; try discriminate. }
  split; [split; [discriminate | intros [[=]|[=]]]|].
  split; [split; [discriminate | intros [=]]|].
  split; [discriminate|]. split; [discriminate|].
  intros this [= <-]. cbn [Team.apiKey Team.teamId Team.baseUrl].
  split; [reflexivity|]. split; [reflexivity|].
  destruct (EPPO_API_KEY env) as [key|]; [|discriminate Hkey].
  destruct (TEAM_ID env) as [team|]; [|discriminate Hteam].
  cbn [default from_option id].
  split; [reflexivity|]. split; [reflexivity|]. split.
  - intros ->. discriminate Hteam.
  - destruct (envSet (EPPO_BASE_URL env)) eqn:Hurl.
    + left. destruct (EPPO_BASE_URL env); [reflexivity | discriminate Hurl].
    + right. split; [|reflexivity]. now apply envSet_false.
Qed.

Lemma configuration_checked_first_witness :
  Team.main {| EPPO_API_KEY := Some "key"; EPPO_BASE_URL := None; TEAM_ID := Some "" |}
            sampleWorld (Fetched samplePayload)
  = ([], 1).
Proof.
  apply (proj1 (proj2 (proj2 (configuration_checked_first
           {| EPPO_API_KEY := Some "key"; EPPO_BASE_URL := None; TEAM_ID := Some "" |}
           sampleWorld (Fetched samplePayload))))).
  reflexivity.
Defined.

(** X15.  A request that fails is fatal: whatever the failure (an error
    response, no response, or an error before sending), the run prints the
    start and fetch lines, the lines of [fetchExperiments]'s [catch] (two
    for an error response, one otherwise), the two lines of [run]'s
    [catch], and ends with status 1, having filtered, printed and written
    nothing. *)
Theorem failed_request_is_fatal (this : Team.Fetcher) (w : World) (r : FetchOutcome) :
  (forall data, r <> Fetched data) ->
  exists caught,
    (caught = [ConsoleError LApiError; ConsoleError LResponseData]
     \/ caught = [ConsoleError LNetworkError]
     \/ caught = [ConsoleError LOtherError])
    /\ Team.run this w r
       = (([ConsoleLog LStarting; ConsoleLog LFetching] ++ caught
           ++ [ConsoleError LRunError; ConsoleError LErrorMessage])%list, 1)
    /\ Ready.run w r = Team.run this w r
    /\ outcome (Team.fetchExperiments r) = None
    /\ outcome (Ready.fetchExperiments r) = None.
Proof.
  intros Hfail. destruct r as [data| | |].
  - now destruct (Hfail data).
  - exists [ConsoleError LApiError; ConsoleError LResponseData]. repeat split. now left.
  - exists [ConsoleError LNetworkError]. repeat split. right; now left.
  - exists [ConsoleError LOtherError]. repeat split. right; now right.
Qed.

Lemma failed_request_is_fatal_witness :
  snd (Ready.run sampleWorld ApiError) = 1.
Proof.
  destruct (failed_request_is_fatal
              {| Team.apiKey := "k"; Team.baseUrl := "u"; Team.teamId := "1" |}
              sampleWorld ApiError ltac:(discriminate))
    as (caught & _ & Hteam & Hready & _).
  rewrite Hready, Hteam. reflexivity.
Defined.

(** The source writes its fallback chains left-nested, [(a || b) || c];
    the value does not depend on the grouping. *)
Lemma orElse_assoc (a b c : option JsValue) :
  ((a <||> b) <||> c) = (a <||> b <||> c).
Proof.
  unfold orElse. destruct a as [x|]; cbn [mbind option_bind]; [|reflexivity].
  destruct (truthy x) eqn:Hx; cbn [mbind option_bind]; [now rewrite Hx|].
  reflexivity.
Qed.
